(** * Perl language-server lifecycle: a shallow embedding of
      [solidlsp/language_servers/perl_language_server.py]

    The file has two parts.  The first part translates the Python source:
    the JSON/Python values that travel over the protocol, the exceptions
    the code can raise, a small state-and-exception monad that threads the
    observable effects (log entries, subprocess invocations, transport
    calls, event flags), and then every function of [PerlLanguageServer]
    in source order.  The second part states and proves the properties. *)

From Stdlib Require Import String Ascii List ZArith NArith Bool Lia Permutation.
Import ListNotations.
Open Scope string_scope.

Set Implicit Arguments.
Set Warnings "-register-all".

(* ===================================================================== *)
(** * Part 1: the embedding                                               *)
(* ===================================================================== *)

(** ** Python strings

    [str] is modelled as [string]; [str.lower] acts on the ASCII letters
    and leaves every other byte alone. *)

Definition is_upper (c : ascii) : bool :=
  ((65 <=? nat_of_ascii c) && (nat_of_ascii c <=? 90))%nat.

Definition lower_char (c : ascii) : ascii :=
  if is_upper c then ascii_of_nat (nat_of_ascii c + 32) else c.

(** [s.lower()] *)
Fixpoint lower (s : string) : string :=
  match s with
  | EmptyString => EmptyString
  | String c t => String (lower_char c) (lower t)
  end.

(** [needle in hay] for two strings: substring search. *)
Fixpoint str_contains (needle hay : string) : bool :=
  if prefix needle hay then true
  else match hay with
       | EmptyString => false
       | String _ t => str_contains needle t
       end.

(** [hay.count(needle)]-like count of the positions at which [needle]
    starts (used to count the bullet lines of an error message). *)
Fixpoint count_starts (needle hay : string) : nat :=
  match hay with
  | EmptyString => if prefix needle EmptyString then 1 else 0
  | String _ t =>
      (if prefix needle hay then 1 else 0) + count_starts needle t
  end.

(** [any(p(x) for x in l)] *)
Definition any {A} (p : A -> bool) (l : list A) : bool := existsb p l.

(** ** Python values as decoded from JSON *)

Inductive value : Type :=
| VNone
| VBool (b : bool)
| VInt (z : Z)
| VFloat (mantissa exponent : Z)
| VStr (s : string)
| VList (l : list value)
| VDict (d : list (string * value)).

(** ** Exceptions *)

Inductive exn : Type :=
| AssertionError (msg : string)
| TypeError
| KeyError (key : string)
| AttributeError
| RuntimeError (msg : string)
| CalledProcessError (returncode : Z) (cmd : list string)
                     (stdout stderr : string)
| OSError (errno : Z)
| ValueError.

Definition result (A : Type) : Type := (exn + A)%type.

(** ** Dictionaries: first binding of a key wins, as in a map. *)

Fixpoint dict_lookup (k : string) (d : list (string * value)) : option value :=
  match d with
  | [] => None
  | (k', v) :: rest => if String.eqb k k' then Some v else dict_lookup k rest
  end.

Definition dict_has (k : string) (d : list (string * value)) : bool :=
  match dict_lookup k d with Some _ => true | None => false end.

(** [v == s] for a string literal [s]. *)
Definition eq_str (v : value) (s : string) : bool :=
  match v with
  | VStr s' => String.eqb s' s
  | _ => false
  end.

(** [k in v] where [k] is a string literal: key membership on a dict,
    element membership on a list, substring on a string, and a
    [TypeError] on everything that is not a container. *)
Definition py_in (k : string) (v : value) : result bool :=
  match v with
  | VDict d => inr (dict_has k d)
  | VList l => inr (existsb (fun x => eq_str x k) l)
  | VStr s => inr (str_contains k s)
  | _ => inl TypeError
  end.

(** [v[k]] where [k] is a string literal. *)
Definition py_getitem (v : value) (k : string) : result value :=
  match v with
  | VDict d =>
      match dict_lookup k d with
      | Some x => inr x
      | None => inl (KeyError k)
      end
  | _ => inl TypeError
  end.

(** [v.get(k, default)]: only a dict has [get]. *)
Definition py_get (v : value) (k : string) (default : value) : result value :=
  match v with
  | VDict d =>
      match dict_lookup k d with
      | Some x => inr x
      | None => inr default
      end
  | _ => inl AttributeError
  end.

(** [v.lower()]: only a string has [lower]. *)
Definition py_lower (v : value) : result string :=
  match v with
  | VStr s => inr (lower s)
  | _ => inl AttributeError
  end.

(** [isinstance(v, int)]: [bool] is a subclass of [int] in Python. *)
Definition isinstance_int (v : value) : bool :=
  match v with
  | VInt _ | VBool _ => true
  | _ => false
  end.

(** [isinstance(v, dict)] *)
Definition isinstance_dict (v : value) : bool :=
  match v with
  | VDict _ => true
  | _ => false
  end.

(** The integer an [int] instance compares equal to ([True == 1]). *)
Definition int_of (v : value) : Z :=
  match v with
  | VInt z => z
  | VBool true => 1
  | _ => 0
  end.

(** [v in l] for an [int] instance [v] and a list of integer literals. *)
Definition int_in (v : value) (l : list Z) : bool :=
  existsb (Z.eqb (int_of v)) l.


(** [for x in v]: the elements of a list, the keys of a dict, the
    one-character strings of a string. *)
Fixpoint chars (s : string) : list value :=
  match s with
  | EmptyString => []
  | String c t => VStr (String c EmptyString) :: chars t
  end.

Definition py_iter (v : value) : result (list value) :=
  match v with
  | VList l => inr l
  | VDict d => inr (map (fun kv => VStr (fst kv)) d)
  | VStr s => inr (chars s)
  | _ => inl TypeError
  end.

(** ** The observable world

    Everything the class touches outside its own locals: the logger, the
    executable search path, child processes, the protocol transport
    ([self.server]) and the [threading.Event] flags. *)

Inductive level : Type := DEBUG | INFO | WARNING.

(** The closures defined inside [_start_server]. *)
Inductive handler : Type :=
| register_capability_handler
| execute_client_command_handler
| do_nothing
| window_log_message
| progress_handler.

(** One entry per externally visible action, in program order. *)
Inductive effect : Type :=
| Log (msg : string) (lvl : level)
| Which (name : string)
| Run (argv : list string) (input : option string)
| OnRequest (method : string) (h : handler)
| OnNotification (method : string) (h : handler)
| ServerStart
| SendInitialize (params : value)
| NotifyInitialized (params : value)
| Reply (method : string) (answer : value)
| Wait (timeout_ms : N).

Record world : Type := mkWorld {
  trace : list effect;
  request_handlers : list (string * handler);
  notification_handlers : list (string * handler);
  started : bool;
  analysis_complete : bool;       (* threading.Event, line 47 *)
  service_ready_event : bool;     (* threading.Event, line 48 *)
  completions_available : bool;   (* threading.Event of the base class *)
  request_timeout_ms : N
}.

(** How a child process ends: it runs and exits with a status, or it
    cannot be spawned at all (an [OSError] of [subprocess.run]). *)
Inductive proc_outcome : Type :=
| Exited (returncode : Z) (stdout stderr : string)
| SpawnFailed (errno : Z).

(** A message the engine sends to the host. *)
Inductive message : Type :=
| Notification (method : string) (params : value)
| Request (method : string) (params : value).

(** What the code reads from its surroundings.  Library functions of
    Python whose exact output does not matter here ([str], [json.dumps],
    [Path.as_uri]) are fields too, so every theorem holds for all of
    them. *)
Record env : Type := mkEnv {
  which : string -> option string;                        (* shutil.which *)
  run : list string -> option string -> proc_outcome;     (* the child of subprocess.run *)
  py_str : value -> string;                               (* str(v), as in an f-string *)
  str_exn : exn -> string;                                (* str(e) *)
  json_dumps : value -> string;                           (* json.dumps(v, indent=4) *)
  getpid : Z;                                             (* os.getpid() *)
  repository_root_path : string;
  as_uri : string -> string;                              (* pathlib.Path(p).as_uri() *)
  super_is_ignored_dirname : string -> bool;              (* base-class policy *)
  init_response : value;                                  (* answer to initialize *)
  (* Messages of the engine, in order of arrival: *)
  at_start : list message;       (* after process start, before initialize is sent *)
  at_initialize : list message;  (* while the initialize request is outstanding *)
  at_wait : list (N * message)   (* after the wait began; each with the delay in
                                    milliseconds since the previous one (the first:
                                    since the wait began) *)
}.

(** ** State-and-exception monad

    An exception keeps the effects performed before it was raised. *)

Definition M (A : Type) : Type := world -> result A * world.

Definition ret {A} (a : A) : M A := fun w => (inr a, w).

Definition bind {A B} (m : M A) (k : A -> M B) : M B :=
  fun w => match m w with
           | (inr a, w') => k a w'
           | (inl e, w') => (inl e, w')
           end.

Definition raise {A} (e : exn) : M A := fun w => (inl e, w).

(** [try: body except <caught>: handler] *)
Definition try_except {A} (body : M A) (caught : exn -> bool)
           (handle : exn -> M A) : M A :=
  fun w => match body w with
           | (inl e, w') => if caught e then handle e w' else (inl e, w')
           | r => r
           end.

Definition lift {A} (r : result A) : M A := fun w => (r, w).

Declare Scope monad_scope.
Delimit Scope monad_scope with monad.
Notation "x <- m ;; k" := (bind m (fun x => k))
  (at level 61, m at next level, right associativity) : monad_scope.
Notation "m ;; k" := (bind m (fun _ => k))
  (at level 61, right associativity) : monad_scope.
Open Scope monad_scope.

Definition emit (e : effect) : M unit :=
  fun w => (inr tt, mkWorld (trace w ++ [e]) (request_handlers w)
                            (notification_handlers w) (started w)
                            (analysis_complete w) (service_ready_event w)
                            (completions_available w) (request_timeout_ms w)).

(** [logger.log(msg, level)] *)
Definition log (msg : string) (lvl : level) : M unit := emit (Log msg lvl).

(** [assert cond, msg] *)
Definition assert (cond : bool) (msg : string) : M unit :=
  if cond then ret tt else raise (AssertionError msg).

(** [self.analysis_complete.set()] *)
Definition analysis_complete_set : M unit :=
  fun w => (inr tt, mkWorld (trace w) (request_handlers w)
                            (notification_handlers w) (started w)
                            true (service_ready_event w)
                            (completions_available w) (request_timeout_ms w)).

(** [self.completions_available.set()] *)
Definition completions_available_set : M unit :=
  fun w => (inr tt, mkWorld (trace w) (request_handlers w)
                            (notification_handlers w) (started w)
                            (analysis_complete w) (service_ready_event w)
                            true (request_timeout_ms w)).

(** [shutil.which(name)] *)
Definition shutil_which (E : env) (name : string) : M (option string) :=
  emit (Which name) ;; ret (which E name).

(** [subprocess.run(argv, check=..., capture_output=True, input=...)]:
    the completed process as (returncode, stdout, stderr). *)
Definition subprocess_run (E : env) (argv : list string)
           (input : option string) (check : bool) : M (Z * string * string) :=
  emit (Run argv input) ;;
  match run E argv input with
  | SpawnFailed errno => raise (OSError errno)
  | Exited rc out err =>
      if check && negb (rc =? 0)%Z
      then raise (CalledProcessError rc argv out err)
      else ret (rc, out, err)
  end.

Definition is_CalledProcessError (e : exn) : bool :=
  match e with CalledProcessError _ _ _ _ => true | _ => false end.

(** Truthiness of a string: non-empty. *)
Definition truthy (s : string) : bool :=
  match s with EmptyString => false | _ => true end.

(** [for x in l: body(x)] *)
Fixpoint for_each {A} (l : list A) (body : A -> M unit) : M unit :=
  match l with
  | [] => ret tt
  | x :: rest => body x ;; for_each rest body
  end.

Definition nl : string := String (ascii_of_nat 10) EmptyString.

(** ** [class PerlLanguageServer] *)

(** The flags and the request timeout as [__init__] leaves them (lines
    47-51): both events freshly created, hence unset; 30 seconds. *)
Definition after_init (w : world) : world :=
  mkWorld (trace w) (request_handlers w) (notification_handlers w)
          (started w) false false (completions_available w) 30000.

Definition perl_ignored_dirs : list string :=
  [ "blib"; ".build"; "cover_db"; "nytprof"; "nytprof.out"; "_build";
    "local"; ".carton"; ".cpanm"; "fatlib"; "perl5"; "extlib"; "inc";
    "share"; "xt" ].

(** [dirname in perl_ignored_dirs] *)
Definition str_in (x : string) (l : list string) : bool :=
  existsb (String.eqb x) l.

Definition is_ignored_dirname (E : env) (dirname : string) : bool :=
  super_is_ignored_dirname E dirname || str_in dirname perl_ignored_dirs.

Definition perl_not_found_message : string :=
  "Perl is not installed or not found in PATH. Please install Perl using one of these methods:" ++ nl ++
  "  - System package manager (brew install perl, apt install perl, yum install perl, etc.)" ++ nl ++
  "  - From source: https://www.perl.org/get.html" ++ nl ++
  "  - Using perlbrew: curl -L https://install.perlbrew.pl | bash && perlbrew install perl-5.38.0" ++ nl ++
  "  - Using plenv: git clone https://github.com/tokuhirom/plenv.git ~/.plenv".

Definition _find_perl_executable (E : env) : M string :=
  perl_path <- shutil_which E "perl" ;;
  match perl_path with
  | Some p => if truthy p then ret p else raise (RuntimeError perl_not_found_message)
  | None => raise (RuntimeError perl_not_found_message)
  end.

Definition check_argv (perl_path : string) : list string :=
  [perl_path; "-MPerl::LanguageServer"; "-e"; "print $Perl::LanguageServer::VERSION"].

Definition _check_perl_language_server_installed (E : env) (perl_path : string)
  : M bool :=
  try_except
    (r <- subprocess_run E (check_argv perl_path) None false ;;
     let '(rc, _, _) := r in ret (rc =? 0)%Z)
    (fun _ => true)
    (fun _ => ret false).

Definition cpan_argv (perl_path : string) : list string :=
  [perl_path; "-MCPAN"; "-e"; "install Perl::LanguageServer"].

Definition install_failed_message (error_msg : string) : string :=
  "Failed to install Perl::LanguageServer: " ++ error_msg ++ nl ++
  "Please try installing manually:" ++ nl ++
  "  - Using cpanm: cpanm Perl::LanguageServer" ++ nl ++
  "  - Using cpan: perl -MCPAN -e 'install Perl::LanguageServer'" ++ nl ++
  "  - Check https://metacpan.org/pod/Perl::LanguageServer for more details".

(** [e.stderr if e.stderr else str(e)] *)
Definition error_msg_of (E : env) (e : exn) : string :=
  match e with
  | CalledProcessError _ _ _ stderr =>
      if truthy stderr then stderr else str_exn E e
  | _ => str_exn E e
  end.

(** The fallback half of the installer (lines 133-149). *)
Definition install_with_cpan (E : env) (perl_path : string) : M unit :=
  log "Installing Perl::LanguageServer using cpan..." INFO ;;
  try_except
    (subprocess_run E (cpan_argv perl_path) (Some ("yes" ++ nl)) true ;;
     log "Successfully installed Perl::LanguageServer using cpan" INFO)
    is_CalledProcessError
    (fun e => raise (RuntimeError (install_failed_message (error_msg_of E e)))).

Definition _install_perl_language_server (E : env) (perl_path : string)
  : M unit :=
  cpanm_path <- shutil_which E "cpanm" ;;
  match cpanm_path with
  | Some c =>
      if truthy c then
        log "Installing Perl::LanguageServer using cpanm..." INFO ;;
        (* [true]: the try-block returned; [false]: fell out of the except *)
        done <- try_except
                  (subprocess_run E [c; "Perl::LanguageServer"] None true ;;
                   log "Successfully installed Perl::LanguageServer using cpanm" INFO ;;
                   ret true)
                  is_CalledProcessError
                  (fun e =>
                     log ("cpanm installation failed: " ++ str_exn E e) WARNING ;;
                     ret false) ;;
        if (done : bool) then ret tt else install_with_cpan E perl_path
      else install_with_cpan E perl_path
  | None => install_with_cpan E perl_path
  end.

Definition launch_command (perl_path : string) : string :=
  perl_path ++ " -MPerl::LanguageServer -e 'Perl::LanguageServer::run()' -- --stdio --version 2.6.0".

Definition _get_perl_language_server_command (E : env) (perl_path : string)
  : M string :=
  installed <- _check_perl_language_server_installed E perl_path ;;
  (if (installed : bool) then ret tt
   else
     log "Perl::LanguageServer not found, attempting to install..." INFO ;;
     _install_perl_language_server E perl_path) ;;
  log "Starting Perl::LanguageServer in stdio mode" INFO ;;
  ret (launch_command perl_path).

Definition _get_perl_exclude_patterns (repository_root_path : string)
  : list string :=
  [ "**/blib/**"; "**/.build/**"; "**/cover_db/**"; "**/nytprof/**";
    "**/nytprof.out"; "**/_build/**"; "**/local/**"; "**/.carton/**";
    "**/.cpanm/**"; "**/fatlib/**"; "**/perl5/**"; "**/extlib/**";
    "**/xt/**"; "**/.git/**"; "**/node_modules/**" ].


(** *** The transport ([self.server]) *)

(** Modelled from the spec: the generic protocol transport is not part of
    the source.  [on_request] and [on_notification] store a callback under
    a method name (a later registration for the same name shadows an
    earlier one); [start] launches the process; an incoming message is
    handed to the callback registered for its method at that moment and is
    discarded when there is none; an exception escaping a callback stays
    on the delivery thread. *)
Definition on_request (method : string) (h : handler) : M unit :=
  fun w => (inr tt, mkWorld (trace w ++ [OnRequest method h])
                            ((method, h) :: request_handlers w)
                            (notification_handlers w) (started w)
                            (analysis_complete w) (service_ready_event w)
                            (completions_available w) (request_timeout_ms w)).

Definition on_notification (method : string) (h : handler) : M unit :=
  fun w => (inr tt, mkWorld (trace w ++ [OnNotification method h])
                            (request_handlers w)
                            ((method, h) :: notification_handlers w) (started w)
                            (analysis_complete w) (service_ready_event w)
                            (completions_available w) (request_timeout_ms w)).

Definition server_start : M unit :=
  fun w => (inr tt, mkWorld (trace w ++ [ServerStart]) (request_handlers w)
                            (notification_handlers w) true
                            (analysis_complete w) (service_ready_event w)
                            (completions_available w) (request_timeout_ms w)).

Fixpoint registered (method : string) (table : list (string * handler))
  : option handler :=
  match table with
  | [] => None
  | (m, h) :: rest => if String.eqb method m then Some h else registered method rest
  end.

(** *** The closures of [_start_server] (lines 310-338) *)

Definition readiness_keywords : list string :=
  ["ready"; "initialized"; "startup complete"].

Definition run_register_capability_handler (E : env) (params : value) : M value :=
  present <- lift (py_in "registrations" params) ;;
  assert present EmptyString ;;
  regs <- lift (py_getitem params "registrations") ;;
  items <- lift (py_iter regs) ;;
  for_each items (fun registration =>
    m <- lift (py_getitem registration "method") ;;
    log ("Registered capability: " ++ py_str E m) INFO) ;;
  ret VNone.

Definition run_execute_client_command_handler (params : value) : M value :=
  ret (VList []).

Definition run_do_nothing (params : value) : M value := ret VNone.

Definition run_window_log_message (E : env) (msg : value) : M value :=
  log ("LSP: window/logMessage: " ++ py_str E msg) INFO ;;
  message_text <- lift (py_get msg "message" (VStr EmptyString)) ;;
  lowered <- lift (py_lower message_text) ;;
  (if any (fun keyword => str_contains keyword lowered) readiness_keywords
   then
     log "Perl::LanguageServer service ready signal detected" INFO ;;
     analysis_complete_set ;;
     completions_available_set
   else ret tt) ;;
  ret VNone.

Definition run_progress_handler (params : value) : M value :=
  has_value <- lift (py_in "value" params) ;;
  (if (has_value : bool) then
     v <- lift (py_getitem params "value") ;;
     kind <- lift (py_get v "kind" VNone) ;;
     if eq_str kind "end" then
       log "Perl::LanguageServer indexing complete" INFO ;;
       analysis_complete_set ;;
       completions_available_set
     else ret tt
   else ret tt) ;;
  ret VNone.

Definition run_handler (E : env) (h : handler) (params : value) : M value :=
  match h with
  | register_capability_handler => run_register_capability_handler E params
  | execute_client_command_handler => run_execute_client_command_handler params
  | do_nothing => run_do_nothing params
  | window_log_message => run_window_log_message E params
  | progress_handler => run_progress_handler params
  end.

(** Delivery of one incoming message on the transport's thread. *)
Definition dispatch (E : env) (m : message) : M unit :=
  fun w =>
    match m with
    | Notification method params =>
        match registered method (notification_handlers w) with
        | None => (inr tt, w)
        | Some h => (inr tt, snd (run_handler E h params w))
        end
    | Request method params =>
        match registered method (request_handlers w) with
        | None => (inr tt, w)
        | Some h =>
            match run_handler E h params w with
            | (inr answer, w') => emit (Reply method answer) w'
            | (inl _, w') => (inr tt, w')
            end
        end
    end.


(** [self.analysis_complete.wait(timeout)]: returns [True] at once when
    the flag is set, otherwise sleeps while messages keep arriving and
    returns [True] as soon as one of them sets the flag, [False] when
    [remaining] milliseconds have passed first. *)
Fixpoint wait_loop (E : env) (remaining : N) (pending : list (N * message))
  : M bool :=
  fun w =>
    if analysis_complete w then (inr true, w)
    else match pending with
         | [] => (inr false, w)
         | (delay, m) :: rest =>
             if (delay <? remaining)%N
             then (dispatch E m ;; wait_loop E (remaining - delay) rest) w
             else (inr false, w)
         end.

Definition analysis_complete_wait (E : env) (timeout_ms : N)
           (pending : list (N * message)) : M bool :=
  emit (Wait timeout_ms) ;; wait_loop E timeout_ms pending.


(** Lines 358-368: the capability check on the initialize response. *)
Definition verify_capabilities (E : env) (init_response : value) : M value :=
  has_caps <- lift (py_in "capabilities" init_response) ;;
  assert has_caps EmptyString ;;
  capabilities <- lift (py_getitem init_response "capabilities") ;;
  has_sync <- lift (py_in "textDocumentSync" capabilities) ;;
  assert has_sync EmptyString ;;
  text_document_sync <- lift (py_getitem capabilities "textDocumentSync") ;;
  (if isinstance_int text_document_sync then
     assert (int_in text_document_sync [1; 2]%Z)
            ("Unexpected textDocumentSync value: " ++ py_str E text_document_sync)
   else if isinstance_dict text_document_sync then
     has_change <- lift (py_in "change" text_document_sync) ;;
     has_open_close <- (if (has_change : bool) then ret true
                        else lift (py_in "openClose" text_document_sync)) ;;
     assert has_open_close "textDocumentSync should have expected properties"
   else ret tt) ;;
  ret capabilities.

(** Lines 394-397: the fallback taken when the wait times out. *)
Definition timeout_warning : string :=
  "Timeout waiting for Perl::LanguageServer indexing completion, proceeding anyway".

Definition timeout_fallback : M unit :=
  log timeout_warning WARNING ;;
  analysis_complete_set ;;
  completions_available_set.

(** Lines 389-397: the bounded wait, with the messages still to arrive. *)
Definition await_readiness (E : env) (pending : list (N * message)) : M unit :=
  log "Waiting for Perl::LanguageServer to complete initial indexing..." INFO ;;
  signalled <- analysis_complete_wait E 30000 pending ;;
  if (signalled : bool) then
    log "Perl::LanguageServer initial indexing complete, server ready" INFO
  else timeout_fallback.


(** The world in which [_start_server] is entered: nothing registered,
    no process, the flags as [__init__] created them. *)
Definition initial_world : world :=
  mkWorld [] [] [] false false false false 30000.

(** ** Readiness signals

    The three sources that can end the wait: a [window/logMessage], a
    [$/progress] report, and the expiry of the wait with nothing further
    arriving. *)
Inductive signal : Type :=
| LogMessage (msg : value)
| Progress (params : value)
| TimeoutExpiry.

Definition fire (E : env) (s : signal) : M unit :=
  match s with
  | LogMessage msg => dispatch E (Notification "window/logMessage" msg)
  | Progress params => dispatch E (Notification "$/progress" params)
  | TimeoutExpiry => await_readiness E []
  end.

(** The readiness state is the pair of event flags. *)
Definition readiness (w : world) : bool * bool :=
  (analysis_complete w, completions_available w).

Definition terminal (r : bool * bool) : bool := fst r.

(** The readiness state after each signal of a sequence, in order. *)
Fixpoint history (E : env) (sigs : list signal) (w : world)
  : list (bool * bool) :=
  match sigs with
  | [] => []
  | s :: rest =>
      let w' := snd (fire E s w) in readiness w' :: history E rest w'
  end.

(** How often a sequence of states enters a terminal value, starting
    from the state [prev]. *)
Fixpoint entries (prev : bool) (states : list (bool * bool)) : nat :=
  match states with
  | [] => 0
  | r :: rest =>
      (if negb prev && terminal r then 1 else 0) + entries (terminal r) rest
  end.

(** How often a sequence of states leaves a terminal value. *)
Fixpoint reverts (prev : bool) (states : list (bool * bool)) : nat :=
  match states with
  | [] => 0
  | r :: rest =>
      (if prev && negb (terminal r) then 1 else 0) + reverts (terminal r) rest
  end.

(** The message text holds keyword [k] in some mix of upper and lower
    case. *)
Definition contains_ci (k text : string) : Prop :=
  exists pre mid post, text = pre ++ mid ++ post /\ lower mid = k.

(** A log message that carries a readiness keyword. *)
Definition ready_log (msg : value) : Prop :=
  exists d text k,
    msg = VDict d /\ dict_lookup "message" d = Some (VStr text) /\
    In k readiness_keywords /\ contains_ci k text.

(** A progress report that marks the end phase. *)
Definition progress_end (params : value) : Prop :=
  exists d v,
    params = VDict d /\ dict_lookup "value" d = Some (VDict v) /\
    dict_lookup "kind" v = Some (VStr "end").

Definition qualifies (s : signal) : Prop :=
  match s with
  | LogMessage msg => ready_log msg
  | Progress params => progress_end params
  | TimeoutExpiry => True
  end.

(** The same test on an incoming message, as a computation: does one of
    the two heuristics fire on it? *)
Definition heuristic_fires (m : message) : bool :=
  match m with
  | Notification method (VDict d) =>
      if String.eqb method "window/logMessage" then
        match dict_lookup "message" d with
        | Some (VStr text) =>
            any (fun keyword => str_contains keyword (lower text)) readiness_keywords
        | _ => false
        end
      else if String.eqb method "$/progress" then
        match dict_lookup "value" d with
        | Some (VDict v) =>
            match dict_lookup "kind" v with
            | Some kind => eq_str kind "end"
            | None => false
            end
        | _ => false
        end
      else false
  | _ => false
  end.



(** ** Glob patterns *)

(** Modelled from the spec: the matcher that consumes the exclusion
    patterns is not part of the source.  A pattern and a path are split at
    [/]; a [**] segment stands for any number of directories (none
    included); inside a segment [*] stands for any run of characters and
    [?] for one character. *)
Fixpoint split_path (s : string) : list string :=
  match s with
  | EmptyString => [EmptyString]
  | String c t =>
      if Ascii.eqb c "/" then EmptyString :: split_path t
      else match split_path t with
           | [] => [String c EmptyString]
           | seg :: rest => String c seg :: rest
           end
  end.

Fixpoint segment_match (pat s : string) : bool :=
  match pat with
  | EmptyString => match s with EmptyString => true | _ => false end
  | String c pat' =>
      if Ascii.eqb c "*" then
        (fix star (s : string) : bool :=
           segment_match pat' s ||
           match s with EmptyString => false | String _ t => star t end) s
      else
        match s with
        | EmptyString => false
        | String d t => (Ascii.eqb c "?" || Ascii.eqb c d) && segment_match pat' t
        end
  end.

Fixpoint glob_segments (pat path : list string) : bool :=
  match pat with
  | [] => match path with [] => true | _ => false end
  | seg :: pat' =>
      if String.eqb seg "**" then
        (fix skip (path : list string) : bool :=
           glob_segments pat' path ||
           match path with [] => false | _ :: t => skip t end) path
      else
        match path with
        | [] => false
        | x :: t => segment_match seg x && glob_segments pat' t
        end
  end.

Definition glob_match (pattern : string) (path : list string) : bool :=
  glob_segments (split_path pattern) path.

(** A pattern covers a directory name when it matches every path that
    lies below a directory of that name, however deep that directory
    is. *)
Definition covers (pattern dirname : string) : Prop :=
  forall (above below : list string),
    below <> [] -> glob_match pattern (above ++ dirname :: below) = true.

(* ===================================================================== *)
(** * Part 2: properties                                                  *)
(* ===================================================================== *)

(** ** Strings *)

Section Strings.

Lemma prefix_app (p t : string) : prefix p (p ++ t) = true.
Proof.
  induction p as [|c p IH]; simpl.
  - destruct t; reflexivity.
  - destruct (ascii_dec c c) as [_|ne]; [exact IH | now elim ne].
Qed.

Lemma prefix_split (p s : string) :
  prefix p s = true -> exists t, s = p ++ t.
Proof.
  revert s; induction p as [|c p IH]; intros s H.
  - exists s; reflexivity.
  - destruct s as [|d s]; simpl in H; [discriminate|].
    destruct (ascii_dec c d) as [->|]; [|discriminate].
    destruct (IH s H) as [t ->]. exists t; reflexivity.
Qed.

Lemma append_assoc (a b c : string) : (a ++ b) ++ c = a ++ (b ++ c).
Proof. induction a as [|x a IH]; simpl; [reflexivity | now rewrite IH]. Qed.

Lemma str_contains_prefix (k s : string) :
  prefix k s = true -> str_contains k s = true.
Proof. intros H. destruct s; cbn [str_contains]; rewrite H; reflexivity. Qed.

Lemma str_contains_intro (k pre post : string) :
  str_contains k (pre ++ k ++ post) = true.
Proof.
  induction pre as [|c pre IH].
  - cbn [append]. apply str_contains_prefix, prefix_app.
  - cbn [append str_contains]. rewrite IH.
    destruct (prefix k (String c (pre ++ k ++ post))); reflexivity.
Qed.

Lemma str_contains_split (k s : string) :
  str_contains k s = true -> exists pre post, s = pre ++ k ++ post.
Proof.
  induction s as [|c s IH]; cbn [str_contains]; intros H.
  - destruct (prefix k EmptyString) eqn:P; [|discriminate].
    destruct (prefix_split _ _ P) as [t Ht]. exists EmptyString, t; exact Ht.
  - destruct (prefix k (String c s)) eqn:P.
    + destruct (prefix_split _ _ P) as [t Ht]. exists EmptyString, t; exact Ht.
    + destruct (IH H) as (pre & post & ->).
      exists (String c pre), post; reflexivity.
Qed.

Lemma lower_app (a b : string) : lower (a ++ b) = lower a ++ lower b.
Proof. induction a as [|c a IH]; simpl; [reflexivity | now rewrite IH]. Qed.

Lemma lower_split (s a b : string) :
  lower s = a ++ b -> exists x y, s = x ++ y /\ lower x = a /\ lower y = b.
Proof.
  revert s; induction a as [|c a IH]; intros s H.
  - exists EmptyString, s; auto.
  - destruct s as [|d s]; simpl in H; [discriminate|].
    injection H as Hc Hs. destruct (IH s Hs) as (x & y & -> & Hx & Hy).
    exists (String d x), y; simpl; rewrite Hc, Hx; auto.
Qed.

(** The substring test on the lowered text is the case-insensitive
    containment of the keyword. *)
Lemma contains_ci_iff (k text : string) :
  str_contains k (lower text) = true <-> contains_ci k text.
Proof.
  split.
  - intros H. destruct (str_contains_split _ _ H) as (a & b & Hab).
    destruct (lower_split _ _ _ Hab) as (pre & rest & -> & Hpre & Hrest).
    destruct (lower_split _ _ _ Hrest) as (mid & post & -> & Hmid & Hpost).
    exists pre, mid, post; auto.
  - intros (pre & mid & post & -> & Hmid).
    rewrite !lower_app, Hmid. apply str_contains_intro.
Qed.

Lemma count_starts_app (needle a b : string) :
  count_starts needle b <= count_starts needle (a ++ b).
Proof.
  induction a as [|c a IH]; cbn [append count_starts]; [lia|].
  destruct (prefix needle (String c (a ++ b))); lia.
Qed.

End Strings.

(** ** Toolchain locator, installer and launch command *)

Section Toolchain.

Variable E : env.

(** The effects a computation performs when nothing happened before. *)
Definition performed {A} (m : M A) : list effect :=
  trace (snd (m initial_world)).

(** The marker that opens each listed method of an error message. *)
Definition bullet : string := nl ++ "  - ".

Definition substring_of (part whole : string) : Prop :=
  exists pre post, whole = pre ++ part ++ post.

(** C8, as amended: when the search finds [perl],
    [_find_perl_executable] returns the path the search reported as it
    is, absolute or not; when the search finds nothing it raises a
    [RuntimeError] whose message lists at least three installation
    methods; in both cases the search is its only effect. *)
Theorem find_perl_executable_contract (w : world) :
  (forall p, which E "perl" = Some p -> p <> EmptyString ->
     _find_perl_executable E w = (inr p, snd (emit (Which "perl") w))) /\
  (which E "perl" = None ->
     exists msg,
       _find_perl_executable E w
         = (inl (RuntimeError msg), snd (emit (Which "perl") w)) /\
       3 <= count_starts bullet msg).
Proof.
  split.
  - intros p Hp Hne. unfold _find_perl_executable, shutil_which, bind, ret.
    cbn [emit fst snd]. rewrite Hp.
    destruct p; [now elim Hne | reflexivity].
  - intros Hnone. exists perl_not_found_message. split.
    + unfold _find_perl_executable, shutil_which, bind, ret.
      cbn [emit fst snd]. rewrite Hnone. reflexivity.
    + vm_compute. lia.
Qed.



(** The primary package manager is not on the search path, or it is and
    its run ends with a non-zero status. *)
Definition primary_unavailable : Prop :=
  which E "cpanm" = None \/
  exists c rc out err,
    which E "cpanm" = Some c /\ c <> EmptyString /\
    run E [c; "Perl::LanguageServer"] None = Exited rc out err /\ rc <> 0%Z.

(** The secondary path: [perl -MCPAN -e 'install ...'], fed [yes]. *)
Definition secondary_attempt (perl_path : string) : effect :=
  Run (cpan_argv perl_path) (Some ("yes" ++ nl)).

Lemma install_failed_message_bullets (error_msg : string) :
  3 <= count_starts bullet (install_failed_message error_msg).
Proof.
  unfold install_failed_message.
  etransitivity; [|apply count_starts_app].
  etransitivity; [|apply count_starts_app].
  vm_compute. lia.
Qed.

Lemma install_with_cpan_trace (perl_path : string) (w : world) :
  exists after,
    trace (snd (install_with_cpan E perl_path w))
      = (trace w ++ [Log "Installing Perl::LanguageServer using cpan..." INFO;
                     secondary_attempt perl_path] ++ after)%list.
Proof.
  unfold install_with_cpan, try_except, subprocess_run, bind, ret, log, raise,
    secondary_attempt.
  cbn [emit fst snd trace].
  destruct (run E (cpan_argv perl_path) (Some ("yes" ++ nl)))
    as [rc out err|errno]; cbn.
  - destruct (rc =? 0)%Z; cbn; rewrite <- ?app_assoc; cbn; eauto.
  - exists []. rewrite <- app_assoc. reflexivity.
Qed.

Lemma install_with_cpan_failure (perl_path : string) (w : world)
      (rc : Z) (out err : string) :
  run E (cpan_argv perl_path) (Some ("yes" ++ nl)) = Exited rc out err ->
  rc <> 0%Z ->
  fst (install_with_cpan E perl_path w)
    = inl (RuntimeError
             (install_failed_message
                (if truthy err then err
                 else str_exn E (CalledProcessError rc (cpan_argv perl_path) out err)))).
Proof.
  intros Hrun Hrc.
  unfold install_with_cpan, try_except, subprocess_run, bind, ret, log, raise.
  cbn [emit fst snd]. rewrite Hrun.
  rewrite (proj2 (Z.eqb_neq rc 0) Hrc). reflexivity.
Qed.

(** When [cpanm] is missing from the search path or its run exits with a
    non-zero status, the installer goes on to the [perl -MCPAN] path, fed
    with [yes], and only that attempt can end in an error; when that run
    exits with a non-zero status too, the installer raises a
    [RuntimeError] whose message contains the error output captured from
    that last run and lists at least two manual remediation steps. *)
Theorem install_fallback_order (perl_path : string) (w : world) :
  primary_unavailable ->
  (exists before after,
     trace (snd (_install_perl_language_server E perl_path w))
       = (trace w ++ before ++ secondary_attempt perl_path :: after)%list /\
     ~ In (secondary_attempt perl_path) before) /\
  (forall rc out err,
     run E (cpan_argv perl_path) (Some ("yes" ++ nl)) = Exited rc out err ->
     rc <> 0%Z ->
     exists msg,
       fst (_install_perl_language_server E perl_path w)
         = inl (RuntimeError msg) /\
       substring_of err msg /\
       2 <= count_starts bullet msg).
Proof.
  intros Hprimary.
  assert (Hfail : forall w' rc out err,
             run E (cpan_argv perl_path) (Some ("yes" ++ nl)) = Exited rc out err ->
             rc <> 0%Z ->
             exists msg,
               fst (install_with_cpan E perl_path w') = inl (RuntimeError msg) /\
               substring_of err msg /\ 2 <= count_starts bullet msg).
  { intros w' rc out err Hrun Hrc.
    rewrite (install_with_cpan_failure _ w' Hrun Hrc).
    eexists; split; [reflexivity|]. split.
    - destruct err as [|c err]; cbn [truthy].
      + exists EmptyString. eexists. reflexivity.
      + unfold install_failed_message, substring_of. eauto.
    - pose proof (install_failed_message_bullets
                    (if truthy err then err
                     else str_exn E (CalledProcessError rc (cpan_argv perl_path) out err))).
      lia. }
  destruct Hprimary as [Hnone | (c & rc & out & err & Hsome & Hne & Hrun & Hrc)].
  - assert (Heq : _install_perl_language_server E perl_path w
                  = install_with_cpan E perl_path (snd (emit (Which "cpanm") w))).
    { unfold _install_perl_language_server, shutil_which, bind, ret.
      cbn [emit fst snd]. rewrite Hnone. reflexivity. }
    rewrite Heq. split; [|apply Hfail].
    destruct (install_with_cpan_trace perl_path (snd (emit (Which "cpanm") w)))
      as [after Ht].
    exists [Which "cpanm"; Log "Installing Perl::LanguageServer using cpan..." INFO], after.
    rewrite Ht. cbn [emit snd trace]. rewrite <- !app_assoc. split; [reflexivity|].
    unfold secondary_attempt. cbn. intuition discriminate.
  - set (w1 := snd ((emit (Which "cpanm") ;;
                     log "Installing Perl::LanguageServer using cpanm..." INFO ;;
                     emit (Run [c; "Perl::LanguageServer"] None) ;;
                     log ("cpanm installation failed: " ++
                          str_exn E (CalledProcessError rc [c; "Perl::LanguageServer"] out err))
                         WARNING) w)).
    assert (Heq : _install_perl_language_server E perl_path w
                  = install_with_cpan E perl_path w1).
    { unfold _install_perl_language_server, shutil_which, try_except,
        subprocess_run, bind, ret, log, raise, w1.
      cbn [emit fst snd]. rewrite Hsome.
      destruct c; [now elim Hne|]. cbn [truthy emit fst snd].
      rewrite Hrun. rewrite (proj2 (Z.eqb_neq rc 0) Hrc). reflexivity. }
    rewrite Heq. split; [|apply Hfail].
    destruct (install_with_cpan_trace perl_path w1) as [after Ht].
    exists [ Which "cpanm";
             Log "Installing Perl::LanguageServer using cpanm..." INFO;
             Run [c; "Perl::LanguageServer"] None;
             Log ("cpanm installation failed: " ++
                  str_exn E (CalledProcessError rc [c; "Perl::LanguageServer"] out err))
                 WARNING;
             Log "Installing Perl::LanguageServer using cpan..." INFO ], after.
    rewrite Ht. unfold w1, bind, log. cbn [emit snd fst trace].
    rewrite <- !app_assoc. cbn [app]. split; [reflexivity|].
    unfold secondary_attempt. cbn [In].
    intros [H|[H|[H|[H|[H|[]]]]]]; congruence.
Qed.

End Toolchain.

(** ** Sequencing *)

(** Sequencing after a step that cannot raise. *)
Lemma bind_unit {B} (m : M unit) (k : unit -> M B) (w : world) :
  fst (m w) = inr tt -> bind m k w = k tt (snd (m w)).
Proof. unfold bind. destruct (m w) as [[e|[]] w']; cbn; [discriminate | reflexivity]. Qed.

Lemma bind_inr {A B} (m : M A) (k : A -> M B) (w w' : world) (a : A) :
  m w = (inr a, w') -> bind m k w = k a w'.
Proof. unfold bind. intros ->. reflexivity. Qed.

(** ** What a handler can do to the world *)

Section Handlers.

Variable E : env.

(** Effects a handler may leave in the trace: log entries below the
    warning level, and the reply to a request. *)
Definition handler_effect (e : effect) : bool :=
  match e with
  | Log _ INFO | Log _ DEBUG | Reply _ _ => true
  | _ => false
  end.

(** [w'] comes from [w] by handler work: the registrations and the process
    are untouched, the trace grew by handler effects, and each event flag
    is set exactly when it was set before or [fired] holds. *)
Definition handler_step (fired : bool) (w w' : world) : Prop :=
  request_handlers w' = request_handlers w /\
  notification_handlers w' = notification_handlers w /\
  started w' = started w /\
  (exists t, trace w' = (trace w ++ t)%list /\ forallb handler_effect t = true) /\
  analysis_complete w' = analysis_complete w || fired /\
  completions_available w' = completions_available w || fired.

Lemma handler_step_refl (w : world) : handler_step false w w.
Proof.
  unfold handler_step. rewrite !orb_false_r. repeat split.
  exists []. rewrite app_nil_r. auto.
Qed.

Lemma handler_step_trans (a b : bool) (w1 w2 w3 : world) :
  handler_step a w1 w2 -> handler_step b w2 w3 -> handler_step (a || b) w1 w3.
Proof.
  intros (R1 & N1 & S1 & (t1 & T1 & F1) & A1 & C1)
         (R2 & N2 & S2 & (t2 & T2 & F2) & A2 & C2).
  unfold handler_step. repeat split; try congruence.
  - exists (t1 ++ t2)%list. rewrite T2, T1, app_assoc, forallb_app, F1, F2. auto.
  - rewrite A2, A1, orb_assoc. reflexivity.
  - rewrite C2, C1, orb_assoc. reflexivity.
Qed.

(** Computations that only write log entries below the warning level. *)
Definition log_only {A} (m : M A) : Prop :=
  forall w, handler_step false w (snd (m w)).

Lemma log_only_ret {A} (a : A) : log_only (ret a).
Proof. intros w. apply handler_step_refl. Qed.

Lemma log_only_lift {A} (r : result A) : log_only (lift r).
Proof. intros w. apply handler_step_refl. Qed.

Lemma log_only_assert (c : bool) (msg : string) : log_only (assert c msg).
Proof. intros w. destruct c; apply handler_step_refl. Qed.

Lemma log_only_log (msg : string) (lvl : level) :
  lvl <> WARNING -> log_only (log msg lvl).
Proof.
  intros Hl w. unfold handler_step; cbn. rewrite !orb_false_r. repeat split.
  exists [Log msg lvl]. split; [reflexivity|].
  destruct lvl; [reflexivity | reflexivity | now elim Hl].
Qed.

Lemma log_only_bind {A B} (m : M A) (k : A -> M B) :
  log_only m -> (forall a, log_only (k a)) -> log_only (bind m k).
Proof.
  intros Hm Hk w. unfold bind. specialize (Hm w).
  destruct (m w) as [[e|a] w']; cbn in *; [exact Hm|].
  change false with (false || false). eapply handler_step_trans; [exact Hm|].
  apply Hk.
Qed.

Lemma log_only_for_each {A} (l : list A) (body : A -> M unit) :
  (forall a, log_only (body a)) -> log_only (for_each l body).
Proof.
  intros Hb. induction l as [|x l IH]; cbn [for_each].
  - apply log_only_ret.
  - apply log_only_bind; auto.
Qed.

Lemma register_capability_log_only (params : value) :
  log_only (run_register_capability_handler E params).
Proof.
  unfold run_register_capability_handler.
  repeat (first [ apply log_only_bind; [|intros ?]
                | apply log_only_lift | apply log_only_assert
                | apply log_only_ret | apply log_only_for_each; intros ?
                | apply log_only_log; discriminate ]).
Qed.

(** The two heuristics, handler by handler. *)
Lemma window_log_message_step (msg : value) (w : world) :
  handler_step (heuristic_fires (Notification "window/logMessage" msg))
               w (snd (run_window_log_message E msg w)).
Proof.
  assert (Hlog : forall s, handler_step false w
                   (snd (log s INFO w))).
  { intros s. apply log_only_log. discriminate. }
  unfold run_window_log_message, bind, lift, ret.
  cbn [log emit fst snd].
  destruct msg; try (cbn; apply Hlog).
  cbn [py_get heuristic_fires String.eqb Ascii.eqb Bool.eqb].
  destruct (dict_lookup "message" d) as [[]|]; try (cbn; apply Hlog).
  - cbn [py_lower].
    destruct (any (fun keyword => str_contains keyword (lower s)) readiness_keywords);
      [|cbn; apply Hlog].
    unfold handler_step; cbn. rewrite !orb_true_r. repeat split.
    eexists. rewrite <- app_assoc. split; reflexivity.
Qed.

Lemma progress_handler_step (params : value) (w : world) :
  handler_step (heuristic_fires (Notification "$/progress" params))
               w (snd (run_progress_handler params w)).
Proof.
  unfold run_progress_handler, bind, lift, ret.
  destruct params as [| b | z | m e | s | l | d];
    try (cbn; apply handler_step_refl).
  - cbn [py_in py_getitem fst snd heuristic_fires].
    destruct (str_contains "value" s); cbn; apply handler_step_refl.
  - cbn [py_in py_getitem fst snd heuristic_fires].
    destruct (existsb (fun x => eq_str x "value") l); cbn; apply handler_step_refl.
  - cbn [py_in py_getitem fst snd heuristic_fires String.eqb Ascii.eqb Bool.eqb].
    unfold dict_has.
    destruct (dict_lookup "value" d) as [v|]; [|cbn; apply handler_step_refl].
    destruct v as [| b | z | m e | s | l | d0];
      try (cbn; apply handler_step_refl).
    cbn [py_get].
    destruct (dict_lookup "kind" d0) as [kind|]; [|cbn; apply handler_step_refl].
    destruct (eq_str kind "end"); [|cbn; apply handler_step_refl].
    unfold handler_step; cbn. rewrite !orb_true_r. repeat split.
    eexists. split; reflexivity.
Qed.

End Handlers.

(** ** Delivery of incoming messages *)

Section Delivery.

Variable E : env.

(** Whether running handler [h] on [params] fires a heuristic. *)
Definition handler_fires (h : handler) (params : value) : bool :=
  match h with
  | window_log_message => heuristic_fires (Notification "window/logMessage" params)
  | progress_handler => heuristic_fires (Notification "$/progress" params)
  | _ => false
  end.

(** Whether delivering [m] in world [w] fires a heuristic, given what is
    registered in [w]. *)
Definition fired_by (w : world) (m : message) : bool :=
  match m with
  | Notification method params =>
      match registered method (notification_handlers w) with
      | Some h => handler_fires h params
      | None => false
      end
  | Request method params =>
      match registered method (request_handlers w) with
      | Some h => handler_fires h params
      | None => false
      end
  end.

Lemma run_handler_step (h : handler) (params : value) (w : world) :
  handler_step (handler_fires h params) w (snd (run_handler E h params w)).
Proof.
  destruct h; cbn [run_handler handler_fires].
  - apply register_capability_log_only.
  - apply handler_step_refl.
  - apply handler_step_refl.
  - apply window_log_message_step.
  - apply progress_handler_step.
Qed.

Lemma dispatch_returns (m : message) (w : world) :
  fst (dispatch E m w) = inr tt.
Proof.
  destruct m as [method params|method params]; cbn [dispatch].
  - destruct (registered method (notification_handlers w)); reflexivity.
  - destruct (registered method (request_handlers w)) as [h|]; [|reflexivity].
    destruct (run_handler E h params w) as [[e|a] w']; reflexivity.
Qed.

Lemma dispatch_step (m : message) (w : world) :
  handler_step (fired_by w m) w (snd (dispatch E m w)).
Proof.
  destruct m as [method params|method params]; cbn [dispatch fired_by].
  - destruct (registered method (notification_handlers w)) as [h|].
    + apply run_handler_step.
    + apply handler_step_refl.
  - destruct (registered method (request_handlers w)) as [h|];
      [|apply handler_step_refl].
    pose proof (run_handler_step h params w) as Hs.
    destruct (run_handler E h params w) as [[e|a] w']; cbn [snd] in *; [exact Hs|].
    rewrite <- (orb_false_r (handler_fires h params)).
    eapply handler_step_trans; [exact Hs|].
    unfold handler_step; cbn. rewrite !orb_false_r. repeat split.
    eexists. split; reflexivity.
Qed.

(** The registrations [_start_server] leaves behind. *)
Definition wired (w : world) : Prop :=
  notification_handlers w
    = [ ("textDocument/publishDiagnostics", do_nothing);
        ("$/progress", progress_handler);
        ("window/logMessage", window_log_message) ] /\
  request_handlers w
    = [ ("workspace/executeClientCommand", execute_client_command_handler);
        ("client/registerCapability", register_capability_handler) ].


Lemma wired_fired_by (w : world) (m : message) :
  wired w -> fired_by w m = heuristic_fires m.
Proof.
  intros [Hn Hr]. destruct m as [method params|method params];
    cbn [fired_by heuristic_fires]; [rewrite Hn | rewrite Hr]; cbn [registered].
  - destruct (String.eqb_spec method "textDocument/publishDiagnostics") as [->|_].
    { destruct params; reflexivity. }
    destruct (String.eqb_spec method "$/progress") as [->|_].
    { destruct params; reflexivity. }
    destruct (String.eqb_spec method "window/logMessage") as [->|_].
    { destruct params; reflexivity. }
    destruct params; reflexivity.
  - destruct (method =? "workspace/executeClientCommand"); [reflexivity|].
    destruct (method =? "client/registerCapability"); reflexivity.
Qed.

(** The world after a list of messages has been delivered in order. *)
Definition deliver (l : list message) (w : world) : world :=
  snd (for_each l (dispatch E) w).

Lemma for_each_dispatch_returns (l : list message) (w : world) :
  fst (for_each l (dispatch E) w) = inr tt.
Proof.
  revert w; induction l as [|m l IH]; intros w; cbn [for_each]; [reflexivity|].
  unfold bind. pose proof (dispatch_returns m w) as Hd.
  destruct (dispatch E m w) as [[e|[]] w']; cbn in Hd; [discriminate|].
  apply IH.
Qed.

Lemma deliver_cons (m : message) (l : list message) (w : world) :
  deliver (m :: l) w = deliver l (snd (dispatch E m w)).
Proof.
  unfold deliver; cbn [for_each]. unfold bind.
  pose proof (dispatch_returns m w) as Hd.
  destruct (dispatch E m w) as [[e|[]] w']; cbn in Hd; [discriminate|].
  reflexivity.
Qed.

Lemma for_each_dispatch_eq (l : list message) (w : world) :
  for_each l (dispatch E) w = (inr tt, deliver l w).
Proof.
  unfold deliver. pose proof (for_each_dispatch_returns l w) as H.
  destruct (for_each l (dispatch E) w) as [r w']; cbn [fst snd] in *.
  rewrite H. reflexivity.
Qed.



End Delivery.

(** ** The capability check *)

Section Capabilities.

Variable E : env.







(** The outcome of the check, as a function of the response alone. *)
Definition check_capabilities (response : value) : result value :=
  fst (verify_capabilities E response initial_world).


(** The check in closed form, for a response that is a dictionary whose
    capabilities are a dictionary. *)
Lemma check_capabilities_dict (r c : list (string * value)) :
  dict_lookup "capabilities" r = Some (VDict c) ->
  check_capabilities (VDict r)
  = match dict_lookup "textDocumentSync" c with
    | None => inl (AssertionError EmptyString)
    | Some v =>
        if isinstance_int v then
          if int_in v [1; 2]%Z then inr (VDict c)
          else inl (AssertionError
                      ("Unexpected textDocumentSync value: " ++ py_str E v))
        else match v with
             | VDict s =>
                 if dict_has "change" s || dict_has "openClose" s
                 then inr (VDict c)
                 else inl (AssertionError
                             "textDocumentSync should have expected properties")
             | _ => inr (VDict c)
             end
    end.
Proof.
  intros Hc. unfold check_capabilities, verify_capabilities, bind, lift, ret.
  cbn [py_in py_getitem fst snd]. unfold dict_has at 1. rewrite Hc.
  cbn [assert ret py_in py_getitem fst snd]. unfold dict_has at 1.
  destruct (dict_lookup "textDocumentSync" c) as [v|]; [|reflexivity].
  cbn [assert ret fst snd].
  destruct v; cbn [isinstance_int isinstance_dict]; try reflexivity.
  - destruct (int_in (VBool b) [1%Z; 2%Z]); reflexivity.
  - destruct (int_in (VInt z) [1%Z; 2%Z]); reflexivity.
  - cbn [py_in fst snd].
    destruct (dict_has "change" d); cbn [orb ret py_in fst snd].
    + reflexivity.
    + destruct (dict_has "openClose" d); reflexivity.
Qed.


End Capabilities.

(** ** The bounded wait *)

Section Waiting.

Variable E : env.

Lemma wait_loop_set (remaining : N) (pending : list (N * message)) (w : world) :
  analysis_complete w = true ->
  wait_loop E remaining pending w = (inr true, w).
Proof. intros H. destruct pending; cbn [wait_loop]; rewrite H; reflexivity. Qed.













(** The world in which the wait proper begins. *)
Definition waiting_world (w : world) : world :=
  snd ((log "Waiting for Perl::LanguageServer to complete initial indexing..." INFO ;;
        emit (Wait 30000)) w).

Lemma await_readiness_eq (pending : list (N * message)) (w : world) :
  await_readiness E pending w
  = match wait_loop E 30000 pending (waiting_world w) with
    | (inl e, w1) => (inl e, w1)
    | (inr true, w1) =>
        log "Perl::LanguageServer initial indexing complete, server ready" INFO w1
    | (inr false, w1) => timeout_fallback w1
    end.
Proof.
  unfold await_readiness, analysis_complete_wait, waiting_world, bind.
  cbn [log emit fst snd].
  destruct (wait_loop E 30000 pending _) as [[e|[]] w1]; reflexivity.
Qed.



(** The wait when the flag is already set: it returns at once. *)
Lemma await_readiness_set (pending : list (N * message)) (w : world) :
  analysis_complete w = true ->
  await_readiness E pending w
  = (inr tt,
     snd (log "Perl::LanguageServer initial indexing complete, server ready" INFO
              (waiting_world w))).
Proof.
  intros Hac. rewrite await_readiness_eq.
  rewrite wait_loop_set; [reflexivity | exact Hac].
Qed.

End Waiting.

(** ** The startup sequence, phase by phase *)

Section Startup.

Variable E : env.


Definition process_started (w : world) : world :=
  snd ((on_request "client/registerCapability" register_capability_handler ;;
        on_notification "window/logMessage" window_log_message ;;
        on_request "workspace/executeClientCommand" execute_client_command_handler ;;
        on_notification "$/progress" progress_handler ;;
        on_notification "textDocument/publishDiagnostics" do_nothing ;;
        log "Starting Perl::LanguageServer process" INFO ;;
        server_start) w).











End Startup.

(** ** Facts about the phases *)

Section Phases.

Variable E : env.



Lemma deliver_app (l1 l2 : list message) (w : world) :
  deliver E (l1 ++ l2) w = deliver E l2 (deliver E l1 w).
Proof.
  revert w; induction l1 as [|m l1 IH]; intros w; [reflexivity|].
  cbn [app]. rewrite !deliver_cons. apply IH.
Qed.








End Phases.

(** ** The timeout fallback *)

Section Timeout.

Lemma existsb_false_iff {A} (f : A -> bool) (l : list A) :
  existsb f l = false <-> forall x, In x l -> f x = false.
Proof.
  induction l as [|a l IH]; cbn.
  - split; [intros _ x [] | reflexivity].
  - rewrite orb_false_iff, IH. split.
    + intros [Ha Hl] x [<-|Hx]; auto.
    + intros H. split; [apply H; auto | intros x Hx; apply H; auto].
Qed.







(** A silent engine: the fallback is taken. *)
Definition silent_env : env :=
  mkEnv (fun _ => None) (fun _ _ => Exited 0 EmptyString EmptyString)
        (fun _ => EmptyString) (fun _ => EmptyString) (fun _ => EmptyString)
        1 "/repo" (fun p => "file://" ++ p) (fun _ => false)
        (VDict [("capabilities", VDict [("textDocumentSync", VInt 1)])])
        [] [] [].


End Timeout.

(** ** The handshake *)

Section Handshake.

Variable E : env.













End Handshake.





(** A JSON boolean is an [int] instance: [false] is checked and refused,
    [true] is accepted as the integer 1. *)
Lemma boolean_text_document_sync (E : env) (c : list (string * value)) (b : bool) :
  dict_lookup "textDocumentSync" c = Some (VBool b) ->
  check_capabilities E (VDict [("capabilities", VDict c)])
  = if b then inr (VDict c)
    else inl (AssertionError ("Unexpected textDocumentSync value: "
                              ++ py_str E (VBool false))).
Proof.
  intros H.
  rewrite (@check_capabilities_dict E [("capabilities", VDict c)] c eq_refl), H.
  destruct b; reflexivity.
Qed.

(** ** Registration precedes the start of the process *)

Section Ordering.

Variable E : env.




(** When the process is started, the five callbacks are in place. *)
Lemma process_started_listening (w : world) :
  started (process_started w) = true /\
  registered "window/logMessage" (notification_handlers (process_started w))
    = Some window_log_message /\
  registered "$/progress" (notification_handlers (process_started w))
    = Some progress_handler /\
  registered "textDocument/publishDiagnostics"
             (notification_handlers (process_started w)) = Some do_nothing /\
  registered "client/registerCapability" (request_handlers (process_started w))
    = Some register_capability_handler /\
  registered "workspace/executeClientCommand" (request_handlers (process_started w))
    = Some execute_client_command_handler.
Proof. repeat split. Qed.


End Ordering.

(** ** The readiness state under a sequence of signals *)

Section Readiness.

Variable E : env.

(** The two readiness callbacks are registered. *)
Definition listening (w : world) : Prop :=
  registered "window/logMessage" (notification_handlers w) = Some window_log_message /\
  registered "$/progress" (notification_handlers w) = Some progress_handler.

(** What one signal does to the flags and the registrations. *)
Definition signal_step (fired : bool) (w w' : world) : Prop :=
  request_handlers w' = request_handlers w /\
  notification_handlers w' = notification_handlers w /\
  analysis_complete w' = analysis_complete w || fired /\
  completions_available w' = completions_available w || fired.

Lemma handler_step_signal (fired : bool) (w w' : world) :
  handler_step fired w w' -> signal_step fired w w'.
Proof. intros (R & N & _ & _ & A & C). repeat split; assumption. Qed.

Lemma expiry_step (w : world) :
  signal_step (negb (analysis_complete w)) w (snd (await_readiness E [] w)).
Proof.
  destruct (analysis_complete w) eqn:Hac.
  - rewrite (await_readiness_set E [] w Hac). unfold signal_step, bind; cbn.
    rewrite Hac, !orb_false_r. auto.
  - unfold await_readiness, analysis_complete_wait, timeout_fallback, bind.
    cbn [log emit fst snd wait_loop analysis_complete]. rewrite Hac.
    unfold signal_step; cbn. rewrite Hac, !orb_true_r. auto.
Qed.

Lemma fire_step (s : signal) (w : world) :
  exists fired, signal_step fired w (snd (fire E s w)).
Proof.
  destruct s as [msg|params|]; cbn [fire].
  - eexists. apply handler_step_signal, dispatch_step.
  - eexists. apply handler_step_signal, dispatch_step.
  - eexists. apply expiry_step.
Qed.

Lemma any_keyword (k text : string) :
  In k readiness_keywords -> contains_ci k text ->
  any (fun keyword => str_contains keyword (lower text)) readiness_keywords = true.
Proof.
  intros Hk Hc. unfold any. apply existsb_exists. exists k. split; [exact Hk|].
  apply contains_ci_iff, Hc.
Qed.

Lemma ready_log_fires (msg : value) :
  ready_log msg -> heuristic_fires (Notification "window/logMessage" msg) = true.
Proof.
  intros (d & text & k & -> & Hm & Hk & Hc). cbn. rewrite Hm.
  apply (any_keyword Hk Hc).
Qed.

Lemma progress_end_fires (params : value) :
  progress_end params -> heuristic_fires (Notification "$/progress" params) = true.
Proof. intros (d & v & -> & Hv & Hkind). cbn. rewrite Hv, Hkind. reflexivity. Qed.

(** A qualifying signal that meets an unset flag sets both flags. *)
Lemma fire_qualifying (s : signal) (w : world) :
  listening w -> qualifies s -> analysis_complete w = false ->
  readiness (snd (fire E s w)) = (true, true).
Proof.
  intros [Hlog Hprog] Hq Hac. unfold readiness.
  destruct s as [msg|params|]; cbn [fire qualifies] in *.
  - pose proof (dispatch_step E (Notification "window/logMessage" msg) w) as S.
    cbn [fired_by] in S. rewrite Hlog in S. cbn [handler_fires] in S.
    rewrite (ready_log_fires Hq) in S.
    destruct S as (_ & _ & _ & _ & A & C). rewrite A, C, !orb_true_r. reflexivity.
  - pose proof (dispatch_step E (Notification "$/progress" params) w) as S.
    cbn [fired_by] in S. rewrite Hprog in S. cbn [handler_fires] in S.
    rewrite (progress_end_fires Hq) in S.
    destruct S as (_ & _ & _ & _ & A & C). rewrite A, C, !orb_true_r. reflexivity.
  - destruct (expiry_step w) as (_ & _ & A & C). rewrite Hac in A, C.
    cbn [negb] in A, C. rewrite A, C, !orb_true_r. reflexivity.
Qed.

(** Once both flags are set, no sequence of signals changes them. *)
Lemma history_terminal (sigs : list signal) (w : world) :
  readiness w = (true, true) ->
  history E sigs w = repeat (true, true) (length sigs).
Proof.
  revert w; induction sigs as [|s sigs IH]; intros w Hw; cbn [history length repeat];
    [reflexivity|].
  unfold readiness in Hw. injection Hw as Ha Hc.
  destruct (fire_step s w) as (f & _ & _ & A & C).
  assert (Hw' : readiness (snd (fire E s w)) = (true, true)).
  { unfold readiness. rewrite A, C, Ha, Hc. reflexivity. }
  cbn zeta. rewrite Hw', (IH _ Hw'). reflexivity.
Qed.

Lemma entries_terminal (n : nat) : entries true (repeat (true, true) n) = 0.
Proof. induction n; cbn; auto. Qed.

Lemma reverts_terminal (n : nat) : reverts true (repeat (true, true) n) = 0.
Proof. induction n; cbn; auto. Qed.

(** The flag never goes back, whatever the signals carry. *)
Lemma never_reverts (sigs : list signal) (w : world) :
  reverts (analysis_complete w) (history E sigs w) = 0.
Proof.
  revert w; induction sigs as [|s sigs IH]; intros w; cbn [history reverts];
    [reflexivity|].
  cbn zeta. unfold terminal at 1 2. cbn [readiness fst]. rewrite IH.
  destruct (fire_step s w) as (f & _ & _ & A & _). rewrite A.
  destruct (analysis_complete w); reflexivity.
Qed.

(** A non-empty sequence of qualifying signals: the first one sets the
    state, and the state stays as the first one left it. *)
Lemma first_signal_wins (first : signal) (later : list signal) (w : world) :
  listening w -> analysis_complete w = false -> qualifies first ->
  history E (first :: later) w = repeat (true, true) (S (length later)) /\
  entries false (history E (first :: later) w) = 1.
Proof.
  intros Hl Hac Hq. pose proof (fire_qualifying first Hl Hq Hac) as Hfirst.
  cbn [history]. cbn zeta. rewrite Hfirst, (history_terminal later Hfirst).
  split; [reflexivity|]. cbn [entries terminal fst negb andb].
  rewrite entries_terminal. reflexivity.
Qed.

(** C1: take a log message with a readiness keyword, a progress report
    marking the end phase and the expiry of the wait, in any order, and
    let them reach a server whose callbacks are registered and whose flag
    is unset.  The state becomes terminal with the first of them and is
    the same after each later one, it enters a terminal value exactly
    once, and it never leaves it; the last holds for arbitrary further
    signals as well. *)
Theorem readiness_reached_once (msg params : value) (sigs : list signal) (w : world) :
  listening w -> analysis_complete w = false ->
  ready_log msg -> progress_end params ->
  Permutation [LogMessage msg; Progress params; TimeoutExpiry] sigs ->
  history E sigs w = [(true, true); (true, true); (true, true)] /\
  entries false (history E sigs w) = 1 /\
  forall further,
    reverts false (history E (sigs ++ further) w) = 0.
Proof.
  intros Hl Hac Hm Hp Hperm.
  assert (Hlen : length sigs = 3) by (rewrite <- (Permutation_length Hperm); reflexivity).
  assert (Hq : Forall qualifies sigs).
  { eapply Permutation_Forall; [exact Hperm|]. repeat constructor; assumption. }
  destruct sigs as [|first later]; [discriminate|].
  injection Hlen as Hlen. inversion Hq as [|? ? Hfirst _]; subst.
  destruct (first_signal_wins first later Hl Hac Hfirst) as [Hh He].
  rewrite Hlen in Hh. repeat split; auto.
  intros further. rewrite <- Hac. apply never_reverts.
Qed.

End Readiness.

(** A log message with a keyword in capitals, and an end-of-progress
    report. *)
Definition ready_message : value := VDict [("message", VStr "Server READY")].

Definition end_report : value :=
  VDict [("token", VInt 7); ("value", VDict [("kind", VStr "end")])].

Lemma ready_message_qualifies : ready_log ready_message.
Proof.
  exists [("message", VStr "Server READY")], "Server READY", "ready".
  split; [reflexivity|]. split; [reflexivity|]. split; [left; reflexivity|].
  exists "Server ", "READY", EmptyString. split; reflexivity.
Qed.

Lemma end_report_qualifies : progress_end end_report.
Proof.
  exists [("token", VInt 7); ("value", VDict [("kind", VStr "end")])],
         [("kind", VStr "end")].
  repeat split.
Qed.

Lemma readiness_reached_once_witness :
  history silent_env [Progress end_report; TimeoutExpiry; LogMessage ready_message]
          (process_started initial_world)
  = [(true, true); (true, true); (true, true)].
Proof.
  refine (proj1 (@readiness_reached_once silent_env ready_message end_report
                   [Progress end_report; TimeoutExpiry; LogMessage ready_message]
                   (process_started initial_world) _ _
                   ready_message_qualifies end_report_qualifies _)).
  - split; reflexivity.
  - reflexivity.
  - apply (Permutation_cons_append
             [Progress end_report; TimeoutExpiry] (LogMessage ready_message)).
Defined.

(** ** A log message without a keyword *)

Section LogMessages.

Variable E : env.

(** C10: a [window/logMessage] payload without a [message] field is read
    as the empty text; for such a payload, and for one whose text holds
    none of the three keywords in any mix of case, the handler returns
    without raising and leaves both flags as they were. *)
Theorem window_log_message_without_keyword
        (d : list (string * value)) (w : world) :
  dict_lookup "message" d = None \/
  (exists text,
     dict_lookup "message" d = Some (VStr text) /\
     forall k, In k readiness_keywords -> ~ contains_ci k text) ->
  fst (run_window_log_message E (VDict d) w) = inr VNone /\
  readiness (snd (run_window_log_message E (VDict d) w)) = readiness w /\
  (dict_lookup "message" d = None ->
   py_get (VDict d) "message" (VStr EmptyString) = inr (VStr EmptyString)).
Proof.
  intros H.
  assert (Hquiet : exists text,
             py_get (VDict d) "message" (VStr EmptyString) = inr (VStr text) /\
             any (fun keyword => str_contains keyword (lower text))
                 readiness_keywords = false).
  { destruct H as [Hnone | (text & Hsome & Hno)].
    - exists EmptyString. cbn [py_get]. rewrite Hnone. split; reflexivity.
    - exists text. cbn [py_get]. rewrite Hsome. split; [reflexivity|].
      apply existsb_false_iff. intros k Hk.
      destruct (str_contains k (lower text)) eqn:Hc; [|reflexivity].
      elim (Hno k Hk). apply contains_ci_iff, Hc. }
  destruct Hquiet as (text & Hget & Hany).
  unfold run_window_log_message.
  rewrite bind_unit by reflexivity.
  unfold bind, lift. rewrite Hget. cbn [py_lower fst snd]. rewrite Hany.
  cbn [ret fst snd log emit readiness analysis_complete completions_available].
  split; [reflexivity | split; [reflexivity|]].
  intros Hnone. cbn [py_get] in Hget. rewrite Hnone in Hget.
  symmetry. exact Hget.
Qed.

End LogMessages.

Lemma window_log_message_without_keyword_witness :
  fst (run_window_log_message silent_env (VDict [("type", VInt 3)]) initial_world)
  = inr VNone.
Proof.
  refine (proj1 (@window_log_message_without_keyword silent_env
                   [("type", VInt 3)] initial_world _)).
  left. reflexivity.
Defined.

(** ** Witnesses for the toolchain theorems *)

(** A machine with [perl] but without [cpanm], on which the engine
    package loads and the CPAN shell fails. *)
Definition machine (argv : list string) (input : option string) : proc_outcome :=
  match argv with
  | [_; "-MCPAN"; _; _] => Exited 2 EmptyString "Can't locate CPAN.pm in @INC"
  | _ => Exited 0 EmptyString EmptyString
  end.

Definition perl_only_env : env :=
  mkEnv (fun name => if String.eqb name "perl" then Some "/usr/bin/perl" else None)
        machine
        (fun _ => EmptyString) (fun _ => EmptyString) (fun _ => EmptyString)
        1 "/repo" (fun p => "file://" ++ p) (fun _ => false)
        (VDict [("capabilities", VDict [("textDocumentSync", VInt 1)])])
        [] [] [].

Lemma find_perl_executable_contract_witness :
  fst (_find_perl_executable perl_only_env initial_world) = inr "/usr/bin/perl" /\
  exists msg,
    fst (_find_perl_executable silent_env initial_world) = inl (RuntimeError msg) /\
    3 <= count_starts bullet msg.
Proof.
  split.
  - rewrite (proj1 (@find_perl_executable_contract perl_only_env initial_world)
                   "/usr/bin/perl" eq_refl); [reflexivity | discriminate].
  - destruct (proj2 (@find_perl_executable_contract silent_env initial_world) eq_refl)
      as (msg & Heq & Hcount).
    exists msg. rewrite Heq. split; [reflexivity | exact Hcount].
Defined.


Lemma install_fallback_order_witness :
  exists msg,
    fst (_install_perl_language_server perl_only_env "/usr/bin/perl" initial_world)
    = inl (RuntimeError msg) /\
    substring_of "Can't locate CPAN.pm in @INC" msg.
Proof.
  assert (Hp : primary_unavailable perl_only_env) by (left; reflexivity).
  destruct (proj2 (@install_fallback_order perl_only_env "/usr/bin/perl"
                     initial_world Hp)
                  2%Z EmptyString "Can't locate CPAN.pm in @INC" eq_refl)
    as (msg & Heq & Hsub & _); [discriminate|].
  exists msg. split; assumption.
Defined.



(** [os.path.isabs] on a POSIX system. *)
Definition is_absolute (p : string) : bool := prefix "/" p.

(** C8, the claim as stated: a path the locator returns is absolute. *)
Definition locator_returns_absolute_path : Prop :=
  forall (E : env) (w : world) (p : string),
    fst (_find_perl_executable E w) = inr p -> is_absolute p = true.

(** A search path with the relative entry [bin], under which [perl] is
    found: [shutil.which] joins the entry and the name, and reports
    [bin/perl]. *)
Definition relative_path_env : env :=
  mkEnv (fun name => if String.eqb name "perl" then Some "bin/perl" else None)
        machine
        (fun _ => EmptyString) (fun _ => EmptyString) (fun _ => EmptyString)
        1 "/repo" (fun p => "file://" ++ p) (fun _ => false)
        (VDict [("capabilities", VDict [("textDocumentSync", VInt 1)])])
        [] [] [].

(** C8, counterexample: the locator hands on a relative path. *)
Lemma locator_returns_absolute_path_fails : ~ locator_returns_absolute_path.
Proof.
  intros H.
  specialize (H relative_path_env initial_world "bin/perl" eq_refl).
  discriminate H.
Qed.

(** ** The workspace filter: directory names against glob patterns *)

Section WorkspaceFilter.

Lemma glob_double_star (pat path : list string) :
  glob_segments ("**" :: pat) path
  = glob_segments pat path
    || match path with
       | [] => false
       | _ :: rest => glob_segments ("**" :: pat) rest
       end.
Proof. destruct path; reflexivity. Qed.

(** A leading [**] skips any number of directories. *)
Lemma glob_skip (pat above rest : list string) :
  glob_segments pat rest = true ->
  glob_segments ("**" :: pat) (above ++ rest) = true.
Proof.
  intros H. induction above as [|x above IH]; rewrite glob_double_star.
  - cbn [app]. rewrite H. reflexivity.
  - cbn [app]. rewrite IH. apply orb_true_r.
Qed.

(** A trailing [**] takes whatever is left. *)
Lemma glob_rest (path : list string) : glob_segments ["**"] path = true.
Proof.
  induction path as [|x path IH]; rewrite glob_double_star.
  - reflexivity.
  - rewrite IH. apply orb_true_r.
Qed.

(** The pattern [**/name/**] covers the directory [name], provided
    [name] is a plain segment. *)
Lemma double_star_pattern_covers (name : string) :
  split_path ("**/" ++ name ++ "/**") = ["**"; name; "**"] ->
  String.eqb name "**" = false ->
  segment_match name name = true ->
  covers ("**/" ++ name ++ "/**") name.
Proof.
  intros Hsplit Hplain Hself above below _.
  unfold glob_match. rewrite Hsplit. apply glob_skip.
  cbn [glob_segments]. rewrite Hplain, Hself. apply glob_rest.
Qed.

(** The claim as stated: every excluded directory name is covered by a
    pattern of the list. *)
Definition filter_complete : Prop :=
  forall (E : env) (root dirname : string),
    is_ignored_dirname E dirname = true ->
    exists pattern,
      In pattern (_get_perl_exclude_patterns root) /\ covers pattern dirname.

(** C5, counterexample: [inc] is an excluded directory name, and no
    pattern of the list matches [inc/Module/Install.pm]. *)
Lemma filter_complete_fails : ~ filter_complete.
Proof.
  intros H.
  destruct (H silent_env "/repo" "inc" eq_refl) as (pattern & Hin & Hcov).
  specialize (Hcov [] ["Module"; "Install.pm"]).
  assert (Hnone : forallb (fun p => negb (glob_match p ["inc"; "Module"; "Install.pm"]))
                          (_get_perl_exclude_patterns "/repo") = true)
    by (vm_compute; reflexivity).
  rewrite forallb_forall in Hnone. specialize (Hnone pattern Hin).
  cbn [app] in Hcov. rewrite Hcov in Hnone; [discriminate|discriminate].
Qed.

(** C5, as amended: every name of [perl_ignored_dirs] other than [inc],
    [share] and [nytprof.out] has its pattern [**/name/**] in the list, and
    that pattern matches every path below a directory of that name at any
    depth; for [nytprof.out] the pattern [**/nytprof.out] is in the list
    and matches an entry of that name at any depth. *)
Theorem exclude_patterns_cover_directories (root dirname : string) :
  In dirname perl_ignored_dirs ->
  dirname <> "inc" -> dirname <> "share" ->
  (dirname <> "nytprof.out" ->
   In ("**/" ++ dirname ++ "/**") (_get_perl_exclude_patterns root) /\
   covers ("**/" ++ dirname ++ "/**") dirname) /\
  (dirname = "nytprof.out" ->
   In ("**/" ++ dirname) (_get_perl_exclude_patterns root) /\
   forall above, glob_match ("**/" ++ dirname) (above ++ [dirname]) = true).
Proof.
  intros Hin Hinc Hshare. split.
  - intros Hnyt. unfold perl_ignored_dirs in Hin. cbn [In] in Hin.
    repeat (destruct Hin as [<-|Hin];
            [ first [ now elim Hinc | now elim Hshare | now elim Hnyt
                    | split; [ cbn; tauto
                             | apply double_star_pattern_covers; reflexivity ] ]
            | ]).
    destruct Hin.
  - intros ->. split; [cbn; tauto|].
    intros above. unfold glob_match.
    change (split_path ("**/" ++ "nytprof.out")) with ["**"; "nytprof.out"].
    apply glob_skip. reflexivity.
Qed.

End WorkspaceFilter.

Lemma exclude_patterns_cover_directories_witness :
  covers "**/blib/**" "blib" /\
  glob_match "**/local/**" ["vendor"; "local"; "lib"; "perl5"; "Moo.pm"] = true.
Proof.
  assert (Hb : covers "**/blib/**" "blib").
  { refine (proj2 (proj1 (@exclude_patterns_cover_directories "/repo" "blib"
                            _ _ _) _)).
    - left. reflexivity.
    - discriminate.
    - discriminate.
    - discriminate. }
  split; [exact Hb|].
  refine (proj2 (proj1 (@exclude_patterns_cover_directories "/repo" "local" _ _ _) _)
                ["vendor"] ["lib"; "perl5"; "Moo.pm"] _).
  - cbn. tauto.
  - discriminate.
  - discriminate.
  - discriminate.
  - discriminate.
Defined.

(* ===================================================================== *)
(** * Part 3: further properties of the toolchain functions              *)
(* ===================================================================== *)

Section Installer.

Variable E : env.

(** What the availability probe reports for an outcome of its child. *)
Definition probe_verdict (o : proc_outcome) : bool :=
  match o with
  | Exited rc _ _ => (rc =? 0)%Z
  | SpawnFailed _ => false
  end.

Lemma check_installed_eq (perl_path : string) (w : world) :
  _check_perl_language_server_installed E perl_path w
  = (inr (probe_verdict (run E (check_argv perl_path) None)),
     snd (emit (Run (check_argv perl_path) None) w)).
Proof.
  unfold _check_perl_language_server_installed, try_except. cbn beta.
  unfold bind at 1. unfold subprocess_run.
  rewrite bind_unit by reflexivity.
  destruct (run E (check_argv perl_path) None) as [rc out err|errno]; reflexivity.
Qed.


Lemma shutil_which_eq (name : string) (w : world) :
  shutil_which E name w = (inr (which E name), snd (emit (Which name) w)).
Proof. unfold shutil_which. rewrite bind_unit by reflexivity. reflexivity. Qed.

(** What [subprocess.run] hands back for an outcome of its child. *)
Definition run_result (argv : list string) (check : bool) (o : proc_outcome)
  : result (Z * string * string) :=
  match o with
  | SpawnFailed errno => inl (OSError errno)
  | Exited rc out err =>
      if check && negb (rc =? 0)%Z
      then inl (CalledProcessError rc argv out err)
      else inr (rc, out, err)
  end.

Lemma subprocess_run_eq (argv : list string) (input : option string)
      (check : bool) (w : world) :
  subprocess_run E argv input check w
  = (run_result argv check (run E argv input), snd (emit (Run argv input) w)).
Proof.
  unfold subprocess_run. rewrite bind_unit by reflexivity.
  destruct (run E argv input) as [rc out err|errno]; cbn [run_result];
    [|reflexivity].
  destruct (check && negb (rc =? 0)%Z); reflexivity.
Qed.

(** The primary half of the installer, once [cpanm] has been found. *)
Lemma install_with_cpanm_eq (perl_path c : string) (w : world) :
  which E "cpanm" = Some c -> c <> EmptyString ->
  _install_perl_language_server E perl_path w
  = let w1 := snd ((emit (Which "cpanm") ;;
                    log "Installing Perl::LanguageServer using cpanm..." INFO ;;
                    emit (Run [c; "Perl::LanguageServer"] None)) w) in
    match run E [c; "Perl::LanguageServer"] None with
    | Exited rc out err =>
        if (rc =? 0)%Z
        then (inr tt,
              snd (log "Successfully installed Perl::LanguageServer using cpanm" INFO w1))
        else install_with_cpan E perl_path
               (snd (log ("cpanm installation failed: " ++
                          str_exn E (CalledProcessError rc [c; "Perl::LanguageServer"] out err))
                         WARNING w1))
    | SpawnFailed errno => (inl (OSError errno), w1)
    end.
Proof.
  intros Hwhich Hne. cbn zeta. rewrite !bind_unit by reflexivity.
  unfold _install_perl_language_server.
  erewrite bind_inr by apply shutil_which_eq. rewrite Hwhich.
  destruct c as [|a c]; [now elim Hne|]. cbn [truthy].
  rewrite bind_unit by reflexivity.
  unfold bind at 1. unfold try_except. unfold bind at 1.
  rewrite subprocess_run_eq.
  destruct (run E [String a c; "Perl::LanguageServer"] None) as [rc out err|errno];
    cbn [run_result andb]; [|reflexivity].
  destruct (rc =? 0)%Z; cbn [negb is_CalledProcessError].
  - rewrite bind_unit by reflexivity. reflexivity.
  - rewrite bind_unit by reflexivity. reflexivity.
Qed.

(** [cpanm] is on the search path and its run exits with status 0. *)
Definition primary_succeeds (c : string) : Prop :=
  which E "cpanm" = Some c /\ c <> EmptyString /\
  exists out err, run E [c; "Perl::LanguageServer"] None = Exited 0 out err.

(** X2: When [cpanm] installs the package, the installer returns at once:
    the effects are the search, two log entries and the one [cpanm] run,
    and the [perl -MCPAN] path is never taken. *)
Theorem install_primary_success (perl_path c : string) (w : world) :
  primary_succeeds c ->
  _install_perl_language_server E perl_path w
  = (inr tt,
     snd ((emit (Which "cpanm") ;;
           log "Installing Perl::LanguageServer using cpanm..." INFO ;;
           emit (Run [c; "Perl::LanguageServer"] None) ;;
           log "Successfully installed Perl::LanguageServer using cpanm" INFO) w))
  /\ ~ In (secondary_attempt perl_path)
          (performed (_install_perl_language_server E perl_path)).
Proof.
  intros (Hwhich & Hne & out & err & Hrun).
  assert (Heq : forall w0,
             _install_perl_language_server E perl_path w0
             = (inr tt,
                snd ((emit (Which "cpanm") ;;
                      log "Installing Perl::LanguageServer using cpanm..." INFO ;;
                      emit (Run [c; "Perl::LanguageServer"] None) ;;
                      log "Successfully installed Perl::LanguageServer using cpanm" INFO) w0))).
  { intros w0. rewrite (install_with_cpanm_eq perl_path w0 Hwhich Hne), Hrun.
    cbn zeta. rewrite !bind_unit by reflexivity. reflexivity. }
  split; [apply Heq|].
  unfold performed. rewrite Heq. unfold secondary_attempt. cbn.
  intros [H|[H|[H|[H|[]]]]]; discriminate.
Qed.

(** X3: The installer catches [CalledProcessError] only: when [cpanm] is
    found but cannot be spawned, the [OSError] leaves the installer as it
    is and the [perl -MCPAN] path is not tried. *)
Theorem install_primary_spawn_failure
        (perl_path c : string) (errno : Z) (w : world) :
  which E "cpanm" = Some c -> c <> EmptyString ->
  run E [c; "Perl::LanguageServer"] None = SpawnFailed errno ->
  _install_perl_language_server E perl_path w
  = (inl (OSError errno),
     snd ((emit (Which "cpanm") ;;
           log "Installing Perl::LanguageServer using cpanm..." INFO ;;
           emit (Run [c; "Perl::LanguageServer"] None)) w)).
Proof.
  intros Hwhich Hne Hrun.
  rewrite (install_with_cpanm_eq perl_path w Hwhich Hne), Hrun. reflexivity.
Qed.




End Installer.

(** ** [_setup_runtime_dependencies] (lines 166-198)

    Strings are byte strings: [strip] removes the ASCII white space,
    [\d] is an ASCII digit, and [int] converts up to
    [int_max_str_digits] digits. *)

Definition is_space (c : ascii) : bool :=
  let n := nat_of_ascii c in
  ((n =? 32) || ((9 <=? n) && (n <=? 13)) || ((28 <=? n) && (n <=? 31)))%nat.

Fixpoint lstrip (s : string) : string :=
  match s with
  | EmptyString => EmptyString
  | String c t => if is_space c then lstrip t else s
  end.

Fixpoint rstrip (s : string) : string :=
  match s with
  | EmptyString => EmptyString
  | String c t =>
      match rstrip t with
      | EmptyString => if is_space c then EmptyString else String c EmptyString
      | t' => String c t'
      end
  end.

(** [s.strip()] *)
Definition strip (s : string) : string := rstrip (lstrip s).

(** [s.split("\n")[0]] *)
Fixpoint first_line (s : string) : string :=
  match s with
  | EmptyString => EmptyString
  | String c t =>
      if Ascii.eqb c (ascii_of_nat 10) then EmptyString
      else String c (first_line t)
  end.

Definition is_digit (c : ascii) : bool :=
  ((48 <=? nat_of_ascii c) && (nat_of_ascii c <=? 57))%nat.

(** The longest run of digits at the head of [s], and what follows. *)
Fixpoint span_digits (s : string) : string * string :=
  match s with
  | EmptyString => (EmptyString, EmptyString)
  | String c t =>
      if is_digit c
      then let (ds, rest) := span_digits t in (String c ds, rest)
      else (EmptyString, s)
  end.

(** [re.match(r"v(\d+)\.(\d+)\.(\d+)", s)]: the three groups.  A greedy
    [\d+] followed by a literal dot can only take the whole run of
    digits, so no backtracking is involved. *)
Definition match_version (s : string) : option (string * string * string) :=
  match s with
  | String c r =>
      if Ascii.eqb c "v" then
        match span_digits r with
        | (String a0 a, String dot1 r1) =>
            if Ascii.eqb dot1 "." then
              match span_digits r1 with
              | (String b0 b, String dot2 r2) =>
                  if Ascii.eqb dot2 "." then
                    match span_digits r2 with
                    | (String c0 c', _) =>
                        Some (String a0 a, String b0 b, String c0 c')
                    | _ => None
                    end
                  else None
              | _ => None
              end
            else None
        | _ => None
        end
      else None
  | EmptyString => None
  end.

(** [re.search(r"v(\d+)\.(\d+)\.(\d+)", s)]: the leftmost match. *)
Fixpoint re_search_version (s : string) : option (string * string * string) :=
  match match_version s with
  | Some groups => Some groups
  | None =>
      match s with
      | EmptyString => None
      | String _ t => re_search_version t
      end
  end.

(** [int(s)] for a string of digits. *)
Fixpoint int_acc (acc : Z) (s : string) : Z :=
  match s with
  | EmptyString => acc
  | String c t => int_acc (10 * acc + (Z.of_nat (nat_of_ascii c) - 48)) t
  end.

Definition int_of_digits (s : string) : Z := int_acc 0 s.

(** The interpreter's default limit on the length of a decimal string
    that [int] converts ([sys.get_int_max_str_digits()]). *)
Definition int_max_str_digits : nat := 4300.

(** [int(s)] for a string of digits: a [ValueError] beyond the limit,
    leading zeros counted. *)
Definition py_int (s : string) : result Z :=
  if (int_max_str_digits <? String.length s)%nat then inl ValueError
  else inr (int_of_digits s).

(** [major < 5 or (major == 5 and minor < 16)] *)
Definition older_than_5_16 (major minor : Z) : bool :=
  ((major <? 5) || ((major =? 5) && (minor <? 16)))%Z.

Definition version_warning (E : env) (major minor patch : Z) : string :=
  "Warning: Perl " ++ py_str E (VInt major) ++ "." ++ py_str E (VInt minor)
    ++ "." ++ py_str E (VInt patch)
    ++ " detected. Perl::LanguageServer works best with Perl 5.16+".

(** Lines 174-192: the [try] block around [perl --version]. *)
Definition check_perl_version (E : env) (perl_path : string) : M unit :=
  try_except
    (r <- subprocess_run E [perl_path; "--version"] None true ;;
     let '(_, stdout, _) := r in
     let perl_version := first_line (strip stdout) in
     log ("Perl version: " ++ perl_version) INFO ;;
     match re_search_version perl_version with
     | Some (a, b, c) =>
         major <- lift (py_int a) ;;
         minor <- lift (py_int b) ;;
         patch <- lift (py_int c) ;;
         if older_than_5_16 major minor
         then log (version_warning E major minor patch) WARNING
         else ret tt
     | None => ret tt
     end)
    is_CalledProcessError
    (fun e =>
       raise (RuntimeError ("Error checking Perl installation: " ++ error_msg_of E e))).

Definition _setup_runtime_dependencies (E : env) : M string :=
  perl_path <- _find_perl_executable E ;;
  check_perl_version E perl_path ;;
  perl_ls_command <- _get_perl_language_server_command E perl_path ;;
  ret perl_ls_command.

(** The banner of a current and of an old interpreter. *)
Definition banner_5_36 : string :=
  nl ++ "This is perl 5, version 36, subversion 0 (v5.36.0) built for x86_64-linux"
     ++ nl ++ nl ++ "Copyright 1987-2022, Larry Wall" ++ nl.

Example banner_5_36_line :
  first_line (strip banner_5_36)
  = "This is perl 5, version 36, subversion 0 (v5.36.0) built for x86_64-linux".
Proof. reflexivity. Qed.

Example banner_5_36_version :
  re_search_version (first_line (strip banner_5_36)) = Some ("5", "36", "0").
Proof. reflexivity. Qed.

Section VersionParsing.



Definition starts_with_digit (s : string) : bool :=
  match s with
  | EmptyString => false
  | String c _ => is_digit c
  end.






Lemma starts_with_digit_app (s t : string) :
  starts_with_digit s = true -> starts_with_digit (s ++ t) = true.
Proof. destruct s; [discriminate | auto]. Qed.




End VersionParsing.



Section RuntimeSetup.

Variable E : env.

Lemma find_perl_executable_eq (w : world) :
  _find_perl_executable E w
  = (match which E "perl" with
     | Some p => if truthy p then inr p else inl (RuntimeError perl_not_found_message)
     | None => inl (RuntimeError perl_not_found_message)
     end,
     snd (emit (Which "perl") w)).
Proof.
  unfold _find_perl_executable.
  erewrite bind_inr by apply shutil_which_eq.
  destruct (which E "perl") as [p|]; [|reflexivity].
  destruct (truthy p); reflexivity.
Qed.


Lemma py_int_beyond (s : string) :
  (int_max_str_digits < String.length s)%nat -> py_int s = inl ValueError.
Proof.
  intros H. unfold py_int.
  destruct (Nat.ltb_spec int_max_str_digits (String.length s)); [reflexivity | lia].
Qed.





(** X11: Without [perl] on the search path the setup raises the installation
    advice and has run no process at all. *)
Theorem setup_stops_without_perl (w : world) :
  which E "perl" = None ->
  _setup_runtime_dependencies E w
  = (inl (RuntimeError perl_not_found_message), snd (emit (Which "perl") w)).
Proof.
  intros Hwhich. unfold _setup_runtime_dependencies.
  unfold bind at 1. rewrite find_perl_executable_eq, Hwhich. reflexivity.
Qed.

(** The builder in closed form: probe, then install if need be. *)
Lemma get_command_eq (perl_path : string) (w : world) :
  _get_perl_language_server_command E perl_path w
  = let w1 := snd (emit (Run (check_argv perl_path) None) w) in
    if probe_verdict (run E (check_argv perl_path) None)
    then (inr (launch_command perl_path),
          snd (log "Starting Perl::LanguageServer in stdio mode" INFO w1))
    else
      match _install_perl_language_server E perl_path
              (snd (log "Perl::LanguageServer not found, attempting to install..."
                        INFO w1)) with
      | (inl e, w2) => (inl e, w2)
      | (inr _, w2) =>
          (inr (launch_command perl_path),
           snd (log "Starting Perl::LanguageServer in stdio mode" INFO w2))
      end.
Proof.
  unfold _get_perl_language_server_command. cbn zeta.
  erewrite bind_inr by apply check_installed_eq.
  destruct (probe_verdict (run E (check_argv perl_path) None)).
  - rewrite !bind_unit by reflexivity. reflexivity.
  - unfold bind at 1. rewrite bind_unit by reflexivity.
    destruct (_install_perl_language_server E perl_path _) as [[e|[]] w2].
    + reflexivity.
    + rewrite bind_unit by reflexivity. reflexivity.
Qed.

Lemma get_command_returns_launch_command (perl_path cmd : string) (w : world) :
  fst (_get_perl_language_server_command E perl_path w) = inr cmd ->
  cmd = launch_command perl_path.
Proof.
  rewrite get_command_eq. cbn zeta.
  destruct (probe_verdict (run E (check_argv perl_path) None)).
  - cbn [fst]. intros H. injection H as <-. reflexivity.
  - destruct (_install_perl_language_server E perl_path _) as [[e|[]] w2];
      cbn [fst]; intros H; [discriminate|].
    injection H as <-. reflexivity.
Qed.

(** X5: Whenever the builder returns, it returns the launch command of the
    runtime it was given, and it returns only if the probe succeeded or
    the installer, run after a failed probe, returned normally. *)
Theorem get_command_result (perl_path cmd : string) (w : world) :
  fst (_get_perl_language_server_command E perl_path w) = inr cmd ->
  cmd = launch_command perl_path /\
  (probe_verdict (run E (check_argv perl_path) None) = true \/
   exists w1, fst (_install_perl_language_server E perl_path w1) = inr tt).
Proof.
  rewrite get_command_eq. cbn zeta.
  destruct (probe_verdict (run E (check_argv perl_path) None)).
  - cbn [fst]. intros H. injection H as <-. auto.
  - destruct (_install_perl_language_server E perl_path _) as [[e|[]] w2] eqn:Hi;
      cbn [fst]; intros H; [discriminate|].
    injection H as <-. split; [reflexivity|]. right.
    eexists. rewrite Hi. reflexivity.
Qed.

(** X6: With a missing engine and an installation that fails, the builder
    raises the installer's error and returns no command. *)
Theorem get_command_install_failure (perl_path : string) (e : exn) (w : world) :
  probe_verdict (run E (check_argv perl_path) None) = false ->
  fst (_install_perl_language_server E perl_path
         (snd ((emit (Run (check_argv perl_path) None) ;;
                log "Perl::LanguageServer not found, attempting to install..." INFO) w)))
  = inl e ->
  fst (_get_perl_language_server_command E perl_path w) = inl e.
Proof.
  intros Hprobe Hinstall. rewrite get_command_eq. cbn zeta. rewrite Hprobe.
  rewrite bind_unit in Hinstall by reflexivity.
  destruct (_install_perl_language_server E perl_path _) as [[e'|[]] w2];
    cbn [fst] in *; congruence.
Qed.

(** X12: Whenever the setup returns, its command is the launch command of
    the interpreter the search found. *)
Theorem setup_returns_located_perl (cmd : string) (w : world) :
  fst (_setup_runtime_dependencies E w) = inr cmd ->
  exists p, which E "perl" = Some p /\ cmd = launch_command p.
Proof.
  unfold _setup_runtime_dependencies.
  unfold bind at 1. rewrite find_perl_executable_eq.
  destruct (which E "perl") as [p|]; [|discriminate].
  destruct (truthy p); [|discriminate].
  unfold bind at 1.
  destruct (check_perl_version E p _) as [[e|[]] w1]; [discriminate|].
  unfold bind at 1.
  destruct (_get_perl_language_server_command E p w1) as [[e|c] w2] eqn:Hc;
    [discriminate|].
  cbn [ret fst]. intros H. injection H as <-.
  exists p. split; [reflexivity|].
  apply (@get_command_returns_launch_command p c w1). rewrite Hc. reflexivity.
Qed.

End RuntimeSetup.

(** ** Machines for the toolchain theorems *)

(** [cpanm] installs the package. *)
Definition cpanm_env : env :=
  mkEnv (fun name => if String.eqb name "cpanm" then Some "/usr/bin/cpanm"
                     else if String.eqb name "perl" then Some "/usr/bin/perl"
                     else None)
        (fun _ _ => Exited 0 EmptyString EmptyString)
        (fun _ => EmptyString) (fun _ => EmptyString) (fun _ => EmptyString)
        1 "/repo" (fun p => "file://" ++ p) (fun _ => false)
        (VDict [("capabilities", VDict [("textDocumentSync", VInt 1)])])
        [] [] [].

(** [cpanm] is found but cannot be executed; everything else runs. *)
Definition broken_cpanm_env : env :=
  mkEnv (fun name => if String.eqb name "cpanm" then Some "/usr/bin/cpanm"
                     else None)
        (fun argv _ => match argv with
                       | ["/usr/bin/cpanm"; _] => SpawnFailed 8
                       | _ => Exited 0 EmptyString EmptyString
                       end)
        (fun _ => EmptyString) (fun _ => EmptyString) (fun _ => EmptyString)
        1 "/repo" (fun p => "file://" ++ p) (fun _ => false)
        (VDict [("capabilities", VDict [("textDocumentSync", VInt 1)])])
        [] [] [].

(** An old interpreter without the engine package and without any
    working package manager. *)
Definition old_perl_machine (argv : list string) (input : option string)
  : proc_outcome :=
  match argv with
  | [_; "--version"] =>
      Exited 0 (nl ++ "This is perl 5, version 14, subversion 2 (v5.14.2) built for i686"
                   ++ nl) EmptyString
  | _ => Exited 1 EmptyString "failed"
  end.

Definition old_perl_env : env :=
  mkEnv (fun name => if String.eqb name "perl" then Some "/usr/bin/perl" else None)
        old_perl_machine
        (fun _ => EmptyString) (fun _ => EmptyString) (fun _ => EmptyString)
        1 "/repo" (fun p => "file://" ++ p) (fun _ => false)
        (VDict [("capabilities", VDict [("textDocumentSync", VInt 1)])])
        [] [] [].




Lemma install_primary_success_witness :
  fst (_install_perl_language_server cpanm_env "/usr/bin/perl" initial_world) = inr tt.
Proof.
  assert (H : primary_succeeds cpanm_env "/usr/bin/cpanm").
  { split; [reflexivity|]. split; [discriminate|].
    exists EmptyString, EmptyString. reflexivity. }
  rewrite (proj1 (@install_primary_success cpanm_env "/usr/bin/perl"
                    "/usr/bin/cpanm" initial_world H)).
  reflexivity.
Defined.

Lemma install_primary_spawn_failure_witness :
  fst (_install_perl_language_server broken_cpanm_env "/usr/bin/perl" initial_world)
  = inl (OSError 8).
Proof.
  rewrite (@install_primary_spawn_failure broken_cpanm_env "/usr/bin/perl"
             "/usr/bin/cpanm" 8 initial_world eq_refl);
    [reflexivity | discriminate | reflexivity].
Defined.





Lemma setup_stops_without_perl_witness :
  performed (_setup_runtime_dependencies silent_env) = [Which "perl"].
Proof.
  unfold performed.
  rewrite (@setup_stops_without_perl silent_env initial_world eq_refl).
  reflexivity.
Defined.

Lemma get_command_result_witness :
  launch_command "/usr/bin/perl" = launch_command "/usr/bin/perl" /\
  (probe_verdict (run cpanm_env (check_argv "/usr/bin/perl") None) = true \/
   exists w1, fst (_install_perl_language_server cpanm_env "/usr/bin/perl" w1) = inr tt).
Proof.
  apply (@get_command_result cpanm_env "/usr/bin/perl"
           (launch_command "/usr/bin/perl") initial_world).
  vm_compute. reflexivity.
Defined.

Lemma get_command_install_failure_witness :
  exists msg,
    fst (_get_perl_language_server_command old_perl_env "/usr/bin/perl" initial_world)
    = inl (RuntimeError msg).
Proof.
  eexists.
  apply (@get_command_install_failure old_perl_env "/usr/bin/perl" _ initial_world).
  - reflexivity.
  - vm_compute. reflexivity.
Defined.

Lemma setup_returns_located_perl_witness :
  exists p, which cpanm_env "perl" = Some p /\
            launch_command "/usr/bin/perl" = launch_command p.
Proof.
  apply (@setup_returns_located_perl cpanm_env (launch_command "/usr/bin/perl")
           initial_world).
  vm_compute. reflexivity.
Defined.

(* ===================================================================== *)
(** * Part 4: further properties of the startup sequence                 *)
(* ===================================================================== *)

Section HandshakeEdges.

Variable E : env.






End HandshakeEdges.






Section HeuristicsExact.

Variable E : env.

Lemma heuristic_log_iff (msg : value) :
  heuristic_fires (Notification "window/logMessage" msg) = true <-> ready_log msg.
Proof.
  split; [|apply ready_log_fires].
  destruct msg as [| b | z | m e | s | l | d];
    cbn [heuristic_fires String.eqb Ascii.eqb Bool.eqb]; try discriminate.
  destruct (dict_lookup "message" d) as [[| b | z | m e | text | l | d']|] eqn:Hm;
    try discriminate.
  intros H. unfold any in H. apply existsb_exists in H. destruct H as (k & Hk & Hc).
  exists d, text, k. repeat split; auto. apply contains_ci_iff, Hc.
Qed.

Lemma heuristic_progress_iff (params : value) :
  heuristic_fires (Notification "$/progress" params) = true <-> progress_end params.
Proof.
  split; [|apply progress_end_fires].
  destruct params as [| b | z | m e | s | l | d]; cbn; try discriminate.
  destruct (dict_lookup "value" d) as [[| b | z | m e | s | l | v]|] eqn:Hv;
    try discriminate.
  destruct (dict_lookup "kind" v) as [kind|] eqn:Hk; [|discriminate].
  destruct kind as [| b | z | m e | s | l | d']; cbn; try discriminate.
  intros H. apply String.eqb_eq in H. subst s.
  exists d, v. repeat split; assumption.
Qed.

Lemma dispatch_flag (m : message) (w : world) :
  wired w -> analysis_complete w = false ->
  analysis_complete (snd (dispatch E m w)) = heuristic_fires m.
Proof.
  intros Hw Hac. pose proof (dispatch_step E m w) as S.
  rewrite (wired_fired_by m Hw) in S.
  destruct S as (_ & _ & _ & _ & A & _). rewrite A, Hac. reflexivity.
Qed.

(** X18: The log-message heuristic is exact: with the callbacks of
    [_start_server] registered and the flag unset, a [window/logMessage]
    sets the flag if and only if its payload is an object whose [message]
    is a text holding one of the three keywords in some mix of upper and
    lower case. *)
Theorem log_heuristic_exact (msg : value) (w : world) :
  wired w -> analysis_complete w = false ->
  (analysis_complete (snd (dispatch E (Notification "window/logMessage" msg) w)) = true
   <-> ready_log msg).
Proof.
  intros Hw Hac. rewrite (dispatch_flag _ Hw Hac). apply heuristic_log_iff.
Qed.

(** X19: The progress heuristic is exact: a [$/progress] sets the flag if and
    only if its payload is an object whose [value] is an object whose
    [kind] is the text [end]. *)
Theorem progress_heuristic_exact (params : value) (w : world) :
  wired w -> analysis_complete w = false ->
  (analysis_complete (snd (dispatch E (Notification "$/progress" params) w)) = true
   <-> progress_end params).
Proof.
  intros Hw Hac. rewrite (dispatch_flag _ Hw Hac). apply heuristic_progress_iff.
Qed.

(** A message is unrelated to readiness when it is a request, or a
    notification for another method than the two heuristics listen to. *)
Definition unrelated (m : message) : Prop :=
  match m with
  | Request _ _ => True
  | Notification method _ =>
      method <> "window/logMessage" /\ method <> "$/progress"
  end.

(** X20: Unrelated messages (diagnostics, requests of the engine, unknown
    methods) are taken and leave the readiness state as it is. *)
Theorem unrelated_messages_ignored (m : message) (w : world) :
  wired w -> unrelated m ->
  fst (dispatch E m w) = inr tt /\
  readiness (snd (dispatch E m w)) = readiness w.
Proof.
  intros Hw Hm. split; [apply dispatch_returns|].
  assert (Hf : heuristic_fires m = false).
  { destruct m as [method params|method params]; [|reflexivity].
    destruct Hm as [H1 H2]. apply String.eqb_neq in H1, H2.
    destruct params; cbn [heuristic_fires]; try reflexivity.
    rewrite H1, H2. reflexivity. }
  pose proof (dispatch_step E m w) as S.
  rewrite (wired_fired_by m Hw), Hf in S.
  destruct S as (_ & _ & _ & _ & A & C).
  unfold readiness. rewrite A, C, !orb_false_r. reflexivity.
Qed.

(** A payload the log-message callback cannot read: not an object, or an
    object whose [message] is not a text. *)
Definition unreadable_log (msg : value) : Prop :=
  match msg with
  | VDict d =>
      match dict_lookup "message" d with
      | Some (VStr _) | None => False
      | Some _ => True
      end
  | _ => True
  end.

(** X21: On an unreadable payload the callback raises [AttributeError]; by
    then it has logged the payload, and it has not touched the flags. *)
Theorem unreadable_log_message_raises (msg : value) (w : world) :
  unreadable_log msg ->
  run_window_log_message E msg w
  = (inl AttributeError,
     snd (log ("LSP: window/logMessage: " ++ py_str E msg) INFO w)).
Proof.
  intros H. unfold run_window_log_message. rewrite bind_unit by reflexivity.
  unfold bind at 1. unfold lift at 1.
  destruct msg as [| b | z | m e | s | l | d]; try reflexivity.
  cbn [unreadable_log] in H. cbn [py_get].
  destruct (dict_lookup "message" d) as [[| b | z | m e | s | l | d']|];
    try contradiction; reflexivity.
Qed.

(** A progress report without a [value] member is taken without any
    effect at all. *)
Theorem progress_without_value_is_noop (d : list (string * value)) (w : world) :
  dict_lookup "value" d = None ->
  run_progress_handler (VDict d) w = (inr VNone, w).
Proof.
  intros H. unfold run_progress_handler, bind, lift.
  cbn [py_in]. unfold dict_has. rewrite H. reflexivity.
Qed.

End HeuristicsExact.

Lemma log_heuristic_exact_witness :
  analysis_complete
    (snd (dispatch silent_env (Notification "window/logMessage" ready_message)
                   (process_started initial_world))) = true.
Proof.
  apply (proj2 (@log_heuristic_exact silent_env ready_message
                  (process_started initial_world)
                  (conj eq_refl eq_refl) eq_refl)).
  exact ready_message_qualifies.
Defined.

Lemma progress_heuristic_exact_witness :
  analysis_complete
    (snd (dispatch silent_env (Notification "$/progress" end_report)
                   (process_started initial_world))) = true.
Proof.
  apply (proj2 (@progress_heuristic_exact silent_env end_report
                  (process_started initial_world)
                  (conj eq_refl eq_refl) eq_refl)).
  exact end_report_qualifies.
Defined.

Lemma unrelated_messages_ignored_witness :
  readiness (snd (dispatch silent_env
                    (Notification "textDocument/publishDiagnostics"
                                  (VDict [("message", VStr "ready")]))
                    (process_started initial_world)))
  = (false, false).
Proof.
  refine (proj2 (@unrelated_messages_ignored silent_env
                   (Notification "textDocument/publishDiagnostics"
                                 (VDict [("message", VStr "ready")]))
                   (process_started initial_world)
                   (conj eq_refl eq_refl) _)).
  split; discriminate.
Defined.

Lemma unreadable_log_message_raises_witness :
  fst (run_window_log_message silent_env (VDict [("message", VInt 5)]) initial_world)
  = inl AttributeError.
Proof.
  rewrite (@unreadable_log_message_raises silent_env (VDict [("message", VInt 5)])
             initial_world I).
  reflexivity.
Defined.

Lemma progress_without_value_is_noop_witness :
  run_progress_handler (VDict [("token", VInt 1)]) initial_world
  = (inr VNone, initial_world).
Proof.
  exact (@progress_without_value_is_noop [("token", VInt 1)] initial_world eq_refl).
Defined.

Section Deadline.

Variable E : env.


End Deadline.



Section RegisterCapability.

Variable E : env.

(** The log entry for one registration. *)
Definition registered_entry (method : value) : M unit :=
  log ("Registered capability: " ++ py_str E method) INFO.

Lemma registrations_loop (regs : list (list (string * value)))
      (methods : list value) (w : world) :
  Forall2 (fun reg method => dict_lookup "method" reg = Some method) regs methods ->
  for_each (map VDict regs)
    (fun registration =>
       m <- lift (py_getitem registration "method") ;;
       log ("Registered capability: " ++ py_str E m) INFO) w
  = (inr tt, snd (for_each methods registered_entry w)).
Proof.
  intros Hregs. revert w.
  induction Hregs as [|reg method regs methods Hm _ IH]; intros w;
    [reflexivity|].
  cbn [map for_each].
  rewrite (bind_unit (registered_entry method)) by reflexivity.
  unfold bind at 1. unfold bind at 1. unfold lift at 1.
  cbn [py_getitem]. rewrite Hm. cbn [log emit].
  rewrite IH. reflexivity.
Qed.

(** X23: A registration request whose [registrations] is a list of objects,
    each with a [method]: the callback writes one log entry per
    registration, in order, returns [None], and changes nothing else. *)
Theorem register_capability_logs_each
        (d : list (string * value)) (regs : list (list (string * value)))
        (methods : list value) (w : world) :
  dict_lookup "registrations" d = Some (VList (map VDict regs)) ->
  Forall2 (fun reg method => dict_lookup "method" reg = Some method) regs methods ->
  run_register_capability_handler E (VDict d) w
  = (inr VNone, snd (for_each methods registered_entry w)).
Proof.
  intros Hd Hregs. unfold run_register_capability_handler.
  unfold bind at 1. unfold lift at 1. cbn [py_in]. unfold dict_has. rewrite Hd.
  unfold bind at 1. cbn [assert ret].
  unfold bind at 1. unfold lift at 1. cbn [py_getitem]. rewrite Hd.
  unfold bind at 1. unfold lift at 1. cbn [py_iter].
  unfold bind at 1. rewrite (registrations_loop w Hregs). reflexivity.
Qed.

(** X24: A registration request without [registrations] trips the assertion
    before anything is logged. *)
Theorem register_capability_requires_registrations
        (d : list (string * value)) (w : world) :
  dict_lookup "registrations" d = None ->
  run_register_capability_handler E (VDict d) w
  = (inl (AssertionError EmptyString), w).
Proof.
  intros Hd. unfold run_register_capability_handler.
  unfold bind at 1. unfold lift at 1. cbn [py_in]. unfold dict_has. rewrite Hd.
  reflexivity.
Qed.

End RegisterCapability.

Lemma register_capability_logs_each_witness :
  trace (snd (run_register_capability_handler silent_env
                (VDict [("registrations",
                         VList [VDict [("id", VStr "1");
                                       ("method", VStr "workspace/didChangeWatchedFiles")];
                                VDict [("method", VStr "textDocument/formatting")]])])
                initial_world))
  = [Log "Registered capability: " INFO; Log "Registered capability: " INFO].
Proof.
  rewrite (@register_capability_logs_each silent_env
             [("registrations",
               VList [VDict [("id", VStr "1");
                             ("method", VStr "workspace/didChangeWatchedFiles")];
                      VDict [("method", VStr "textDocument/formatting")]])]
             [[("id", VStr "1"); ("method", VStr "workspace/didChangeWatchedFiles")];
              [("method", VStr "textDocument/formatting")]]
             [VStr "workspace/didChangeWatchedFiles"; VStr "textDocument/formatting"]
             initial_world eq_refl).
  - reflexivity.
  - repeat constructor.
Defined.

Lemma register_capability_requires_registrations_witness :
  fst (run_register_capability_handler silent_env (VDict []) initial_world)
  = inl (AssertionError EmptyString).
Proof.
  rewrite (@register_capability_requires_registrations silent_env [] initial_world
             eq_refl).
  reflexivity.
Defined.

Section Initialized.

Variable E : env.




End Initialized.


(* ===================================================================== *)
(** * Part 5: [_detect_perl_project_type] (lines 200-243)                *)
(* ===================================================================== *)

(** [os.path.join(a, b)] on a POSIX system. *)
Fixpoint ends_with_slash (s : string) : bool :=
  match s with
  | EmptyString => false
  | String c EmptyString => Ascii.eqb c "/"
  | String _ t => ends_with_slash t
  end.

Definition path_join (a b : string) : string :=
  if prefix "/" b then b
  else if negb (truthy a) || ends_with_slash a then a ++ b
  else a ++ "/" ++ b.

(** [d[k] = v]: an existing key keeps its place, a new one goes last. *)
Fixpoint dict_set (k : string) (v : value) (d : list (string * value))
  : list (string * value) :=
  match d with
  | [] => [(k, v)]
  | (k', x) :: rest =>
      if String.eqb k k' then (k, v) :: rest else (k', x) :: dict_set k v rest
  end.

(** [d[k].append(x)] for a key that holds a list. *)
Fixpoint dict_append (k : string) (x : value) (d : list (string * value))
  : list (string * value) :=
  match d with
  | [] => []
  | (k', VList l) :: rest =>
      if String.eqb k k' then (k', VList (l ++ [x])) :: rest
      else (k', VList l) :: dict_append k x rest
  | (k', y) :: rest =>
      if String.eqb k k' then (k', y) :: rest
      else (k', y) :: dict_append k x rest
  end.

Definition lib_dir_candidates : list string :=
  ["lib"; "local/lib/perl5"; "extlib"; "fatlib"].

Definition inc_dir_candidates : list string := ["inc"; "share"].

(** The loops of lines 232-241. *)
Definition collect_dirs (path_exists : string -> bool) (root key : string)
           (candidates : list string) (info : list (string * value))
  : list (string * value) :=
  fold_left (fun info dir =>
               let path := path_join root dir in
               if path_exists path then dict_append key (VStr path) info else info)
            candidates info.

(** [path_exists] stands for [os.path.exists]. *)
Definition _detect_perl_project_type (path_exists : string -> bool)
           (repository_root_path : string) : list (string * value) :=
  let project_info :=
    [ ("type", VStr "generic"); ("has_makefile", VBool false);
      ("has_build_pl", VBool false); ("has_cpanfile", VBool false);
      ("has_minil", VBool false); ("lib_dirs", VList []); ("inc_dirs", VList []) ] in
  let project_info :=
    if path_exists (path_join repository_root_path "Makefile.PL")
    then dict_set "type" (VStr "ExtUtils::MakeMaker")
                  (dict_set "has_makefile" (VBool true) project_info)
    else project_info in
  let project_info :=
    if path_exists (path_join repository_root_path "Build.PL")
    then dict_set "type" (VStr "Module::Build")
                  (dict_set "has_build_pl" (VBool true) project_info)
    else project_info in
  let project_info :=
    if path_exists (path_join repository_root_path "cpanfile")
    then dict_set "has_cpanfile" (VBool true) project_info
    else project_info in
  let project_info :=
    if path_exists (path_join repository_root_path "minil.toml")
    then dict_set "type" (VStr "Minilla")
                  (dict_set "has_minil" (VBool true) project_info)
    else project_info in
  let project_info :=
    collect_dirs path_exists repository_root_path "lib_dirs"
                 lib_dir_candidates project_info in
  collect_dirs path_exists repository_root_path "inc_dirs"
               inc_dir_candidates project_info.

Example detect_minilla :
  _detect_perl_project_type
    (fun p => str_in p ["/repo/Build.PL"; "/repo/minil.toml"; "/repo/lib"; "/repo/share"])
    "/repo"
  = [ ("type", VStr "Minilla"); ("has_makefile", VBool false);
      ("has_build_pl", VBool true); ("has_cpanfile", VBool false);
      ("has_minil", VBool true); ("lib_dirs", VList [VStr "/repo/lib"]);
      ("inc_dirs", VList [VStr "/repo/share"]) ].
Proof. reflexivity. Qed.

Section ProjectType.

Variable path_exists : string -> bool.
Variable root : string.

Lemma dict_lookup_set (k k' : string) (v : value) (d : list (string * value)) :
  dict_lookup k (dict_set k' v d)
  = if String.eqb k k' then Some v else dict_lookup k d.
Proof.
  induction d as [|[k0 x] d IH]; cbn [dict_set dict_lookup].
  - destruct (String.eqb k k'); reflexivity.
  - destruct (String.eqb_spec k' k0) as [->|Hne]; cbn [dict_lookup].
    + destruct (String.eqb k k0); reflexivity.
    + rewrite IH. destruct (String.eqb_spec k k0) as [->|Hne'].
      * apply not_eq_sym in Hne. apply String.eqb_neq in Hne. rewrite Hne.
        reflexivity.
      * reflexivity.
Qed.

Lemma dict_keys_set (k : string) (v : value) (d : list (string * value)) :
  dict_has k d = true -> map fst (dict_set k v d) = map fst d.
Proof.
  unfold dict_has. induction d as [|[k0 x] d IH]; cbn [dict_set dict_lookup map fst].
  - discriminate.
  - destruct (String.eqb_spec k k0) as [->|Hne]; [reflexivity|].
    intros H. cbn [map fst]. rewrite (IH H). reflexivity.
Qed.

Lemma dict_lookup_append_other (k k' : string) (x : value)
      (d : list (string * value)) :
  k <> k' -> dict_lookup k (dict_append k' x d) = dict_lookup k d.
Proof.
  intros Hne. induction d as [|[k0 y] d IH]; [reflexivity|].
  cbn [dict_append].
  destruct y; destruct (String.eqb_spec k' k0) as [->|Hne0];
    cbn [dict_lookup]; try rewrite IH; try reflexivity.
  apply String.eqb_neq in Hne. rewrite Hne. reflexivity.
Qed.

Lemma dict_lookup_append_same (k : string) (x : value) (l : list value)
      (d : list (string * value)) :
  dict_lookup k d = Some (VList l) ->
  dict_lookup k (dict_append k x d) = Some (VList (l ++ [x])).
Proof.
  induction d as [|[k0 y] d IH]; cbn [dict_lookup]; [discriminate|].
  destruct (String.eqb_spec k k0) as [->|Hne].
  - intros H. injection H as ->. cbn [dict_append]. rewrite String.eqb_refl.
    cbn [dict_lookup]. rewrite String.eqb_refl. reflexivity.
  - intros H. cbn [dict_append].
    apply String.eqb_neq in Hne.
    destruct y; rewrite Hne; cbn [dict_lookup]; rewrite Hne; apply IH, H.
Qed.

Lemma dict_keys_append (k : string) (x : value) (d : list (string * value)) :
  map fst (dict_append k x d) = map fst d.
Proof.
  induction d as [|[k0 y] d IH]; [reflexivity|].
  cbn [dict_append].
  destruct y; destruct (String.eqb k k0); cbn [map fst]; rewrite ?IH; reflexivity.
Qed.

Lemma collect_dirs_other (k key : string) (candidates : list string)
      (info : list (string * value)) :
  k <> key ->
  dict_lookup k (collect_dirs path_exists root key candidates info)
  = dict_lookup k info.
Proof.
  intros Hne. unfold collect_dirs. revert info.
  induction candidates as [|c cs IH]; intros info; [reflexivity|].
  cbn [fold_left]. rewrite IH.
  destruct (path_exists (path_join root c)); [|reflexivity].
  apply dict_lookup_append_other, Hne.
Qed.

Lemma collect_dirs_same (key : string) (candidates : list string)
      (l : list value) (info : list (string * value)) :
  dict_lookup key info = Some (VList l) ->
  dict_lookup key (collect_dirs path_exists root key candidates info)
  = Some (VList (l ++ map VStr (filter path_exists
                                       (map (path_join root) candidates)))).
Proof.
  unfold collect_dirs. revert l info.
  induction candidates as [|c cs IH]; intros l info H; cbn [fold_left map filter].
  - rewrite app_nil_r. exact H.
  - destruct (path_exists (path_join root c)).
    + rewrite (IH _ _ (dict_lookup_append_same _ _ _ H)).
      cbn [map]. rewrite <- app_assoc. reflexivity.
    + apply IH, H.
Qed.

Lemma collect_dirs_keys (key : string) (candidates : list string)
      (info : list (string * value)) :
  map fst (collect_dirs path_exists root key candidates info) = map fst info.
Proof.
  unfold collect_dirs. revert info.
  induction candidates as [|c cs IH]; intros info; [reflexivity|].
  cbn [fold_left]. rewrite IH.
  destruct (path_exists (path_join root c)); [|reflexivity].
  apply dict_keys_append.
Qed.

(** The dictionary as the four marker checks leave it. *)
Definition after_markers : list (string * value) :=
  let project_info :=
    [ ("type", VStr "generic"); ("has_makefile", VBool false);
      ("has_build_pl", VBool false); ("has_cpanfile", VBool false);
      ("has_minil", VBool false); ("lib_dirs", VList []); ("inc_dirs", VList []) ] in
  let project_info :=
    if path_exists (path_join root "Makefile.PL")
    then dict_set "type" (VStr "ExtUtils::MakeMaker")
                  (dict_set "has_makefile" (VBool true) project_info)
    else project_info in
  let project_info :=
    if path_exists (path_join root "Build.PL")
    then dict_set "type" (VStr "Module::Build")
                  (dict_set "has_build_pl" (VBool true) project_info)
    else project_info in
  let project_info :=
    if path_exists (path_join root "cpanfile")
    then dict_set "has_cpanfile" (VBool true) project_info
    else project_info in
  if path_exists (path_join root "minil.toml")
  then dict_set "type" (VStr "Minilla")
                (dict_set "has_minil" (VBool true) project_info)
  else project_info.

Lemma detect_eq :
  _detect_perl_project_type path_exists root
  = collect_dirs path_exists root "inc_dirs" inc_dir_candidates
      (collect_dirs path_exists root "lib_dirs" lib_dir_candidates after_markers).
Proof. reflexivity. Qed.

Ltac by_cases_on_markers :=
  unfold after_markers;
  destruct (path_exists (path_join root "Makefile.PL"));
  destruct (path_exists (path_join root "Build.PL"));
  destruct (path_exists (path_join root "cpanfile"));
  destruct (path_exists (path_join root "minil.toml"));
  reflexivity.

(** X25: The build system is decided by three marker files, the later check
    overriding the earlier: [minil.toml] beats [Build.PL], which beats
    [Makefile.PL]; without any of them the project is [generic].  A
    [cpanfile] and the library directories have no say in it. *)
Theorem project_type_precedence :
  dict_lookup "type" (_detect_perl_project_type path_exists root)
  = Some (VStr (if path_exists (path_join root "minil.toml") then "Minilla"
                else if path_exists (path_join root "Build.PL") then "Module::Build"
                else if path_exists (path_join root "Makefile.PL")
                     then "ExtUtils::MakeMaker"
                else "generic")).
Proof.
  rewrite detect_eq, !collect_dirs_other by discriminate. by_cases_on_markers.
Qed.

(** X26: Each marker flag reports the presence of its own file and nothing
    else; in particular the flag of an overridden build system stays
    set. *)
Theorem project_flags_report_files :
  let info := _detect_perl_project_type path_exists root in
  dict_lookup "has_makefile" info
    = Some (VBool (path_exists (path_join root "Makefile.PL"))) /\
  dict_lookup "has_build_pl" info
    = Some (VBool (path_exists (path_join root "Build.PL"))) /\
  dict_lookup "has_cpanfile" info
    = Some (VBool (path_exists (path_join root "cpanfile"))) /\
  dict_lookup "has_minil" info
    = Some (VBool (path_exists (path_join root "minil.toml"))).
Proof.
  cbn zeta. rewrite detect_eq, !collect_dirs_other by discriminate.
  repeat split; by_cases_on_markers.
Qed.

(** X27: The directory lists hold exactly the candidates that exist, joined
    to the root, in the order of the candidate lists. *)
Theorem project_dirs_are_existing_candidates :
  let info := _detect_perl_project_type path_exists root in
  dict_lookup "lib_dirs" info
    = Some (VList (map VStr (filter path_exists
                                    (map (path_join root) lib_dir_candidates)))) /\
  dict_lookup "inc_dirs" info
    = Some (VList (map VStr (filter path_exists
                                    (map (path_join root) inc_dir_candidates)))).
Proof.
  cbn zeta. rewrite detect_eq. split.
  - rewrite collect_dirs_other by discriminate.
    apply (collect_dirs_same "lib_dirs" lib_dir_candidates (l := [])).
    by_cases_on_markers.
  - apply (collect_dirs_same "inc_dirs" inc_dir_candidates (l := [])).
    rewrite collect_dirs_other by discriminate. by_cases_on_markers.
Qed.

(** X28: Whatever is found, the result has the same seven keys in the same
    order. *)
Theorem project_info_keys :
  map fst (_detect_perl_project_type path_exists root)
  = ["type"; "has_makefile"; "has_build_pl"; "has_cpanfile"; "has_minil";
     "lib_dirs"; "inc_dirs"].
Proof. rewrite detect_eq, !collect_dirs_keys. by_cases_on_markers. Qed.

End ProjectType.

(* ===================================================================== *)
(** * Part 6: what the exclusion patterns leave alone                    *)
(* ===================================================================== *)

Section PatternSoundness.

(** A segment without the wildcards [*] and [?]. *)
Fixpoint plain (s : string) : bool :=
  match s with
  | EmptyString => true
  | String c t => negb (Ascii.eqb c "*") && negb (Ascii.eqb c "?") && plain t
  end.

Lemma segment_match_plain (d x : string) :
  plain d = true -> segment_match d x = true -> x = d.
Proof.
  revert x. induction d as [|c d IH]; intros x Hp Hm.
  - destruct x; [reflexivity | discriminate].
  - cbn [plain] in Hp. apply andb_prop in Hp. destruct Hp as [Hc Hd].
    apply andb_prop in Hc. destruct Hc as [Hstar Hq].
    apply negb_true_iff in Hstar, Hq.
    cbn [segment_match] in Hm. rewrite Hstar in Hm.
    destruct x as [|y x]; [discriminate|].
    rewrite Hq in Hm. cbn [orb] in Hm.
    apply andb_prop in Hm. destruct Hm as [Hy Hrest].
    apply Ascii.eqb_eq in Hy. subst y. rewrite (IH x Hd Hrest). reflexivity.
Qed.

Lemma glob_double_star_elim (pat path : list string) :
  glob_segments ("**" :: pat) path = true ->
  exists above rest, path = (above ++ rest)%list /\ glob_segments pat rest = true.
Proof.
  induction path as [|x path IH]; rewrite glob_double_star; intros H.
  - rewrite orb_false_r in H. exists [], []. auto.
  - apply orb_prop in H. destruct H as [H|H].
    + exists [], (x :: path). auto.
    + destruct (IH H) as (above & rest & -> & Hr).
      exists (x :: above), rest. auto.
Qed.

(** What a pattern [**/name/**] or [**/name] can match: only a path that
    has a segment [name]. *)
Lemma double_star_pattern_needs_segment (name : string) (tail path : list string) :
  plain name = true -> String.eqb name "**" = false ->
  glob_segments ("**" :: name :: tail) path = true -> In name path.
Proof.
  intros Hp Hn H.
  destruct (@glob_double_star_elim _ _ H) as (above & rest & -> & Hr).
  cbn [glob_segments] in Hr. rewrite Hn in Hr.
  destruct rest as [|x rest]; [discriminate|].
  apply andb_prop in Hr. destruct Hr as [Hx _].
  rewrite (@segment_match_plain name x Hp Hx).
  apply in_or_app. right. left. reflexivity.
Qed.

(** The names the patterns are built around. *)
Definition pattern_names : list string :=
  [ "blib"; ".build"; "cover_db"; "nytprof"; "nytprof.out"; "_build"; "local";
    ".carton"; ".cpanm"; "fatlib"; "perl5"; "extlib"; "xt"; ".git";
    "node_modules" ].

(** X29: The patterns exclude nothing else: a path that one of the patterns
    matches has a segment that is one of the fifteen names.  In particular
    no pattern matches a path through [lib], [t], [inc] or [share] unless
    one of the names occurs in it too. *)
Theorem patterns_match_only_named_directories
        (root pattern : string) (path : list string) :
  In pattern (_get_perl_exclude_patterns root) ->
  glob_match pattern path = true ->
  exists name, In name pattern_names /\ In name path.
Proof.
  intros Hin Hm. unfold _get_perl_exclude_patterns in Hin. cbn [In] in Hin.
  unfold glob_match in Hm.
  repeat (destruct Hin as [<-|Hin];
          [ match type of Hm with
            | glob_segments (split_path ?p) _ = true =>
                let segs := eval vm_compute in (split_path p) in
                change (split_path p) with segs in Hm
            end;
            match type of Hm with
            | glob_segments ("**" :: ?name :: _) _ = true =>
                exists name; split;
                [ cbn; tauto
                | exact (@double_star_pattern_needs_segment name _ _
                           eq_refl eq_refl Hm) ]
            end
          | ]).
  destruct Hin.
Qed.

End PatternSoundness.

Lemma patterns_match_only_named_directories_witness :
  exists name, In name pattern_names /\ In name ["vendor"; "local"; "Moo.pm"].
Proof.
  apply (@patterns_match_only_named_directories "/repo" "**/local/**"
           ["vendor"; "local"; "Moo.pm"]).
  - cbn. tauto.
  - reflexivity.
Defined.

(* ====================================================================== *)
(** * Part 7: the installer's fallback, by kind of failure                *)
(* ====================================================================== *)




Section FallbackByFailure.

Variable E : env.


End FallbackByFailure.

